(** * Locohost: the process discovery and enrichment pipeline of [server.js]

    A shallow embedding of [src/server.js]: the JavaScript built-ins the file
    relies on (string methods, the three regular expressions, [parseInt],
    [path.basename], [Map], [Array.prototype.sort]), the asynchronous shell
    calls as a state-and-exception monad over an abstract operating system,
    and the functions [getConductorWorkspaces], [getLocalhostProcesses],
    [killProcess] and the HTTP request handler.

    Modelling conventions.
    - A JavaScript string is a [string]: a sequence of 8-bit characters
      standing for the code units of the ASCII / Latin-1 range.
    - A JavaScript number produced by [parseInt] is [NaN] or an exact integer
      ([Int z]); doubles are exact up to 2^53, which covers every process id
      and TCP port.
    - [await execAsync(cmd)] either returns the standard output or throws an
      [Error]; the operating system is a state threaded through every call.
    - One request is followed from its start to its answer. Requests that
      overlap it at an [await] act on it through the operating system and
      through the one variable the module shares between requests,
      [conductorWorkspaces]: what another request assigned to it is given by
      the host ([overlapping_write]). *)

From Stdlib Require Import String Ascii List ZArith Lia Bool PeanoNat.
From Stdlib Require Import DecimalString DecimalPos DecimalZ.
From Stdlib Require Import Sorted Permutation.
Import ListNotations.
Local Open Scope list_scope.
Local Open Scope string_scope.

Set Implicit Arguments.
Set Warnings "-register-all".

(** ** JavaScript built-ins *)

Module JS.

(** Numbers as [parseInt] produces them. *)
Inductive number : Type :=
  | NaN : number
  | Int : Z -> number.

Definition number_eqb (a b : number) : bool :=
  match a, b with
  | NaN, NaN => true
  | Int x, Int y => Z.eqb x y
  | _, _ => false
  end.

(** [a - b] on numbers: anything involving [NaN] is [NaN]. *)
Definition sub (a b : number) : number :=
  match a, b with
  | Int x, Int y => Int (x - y)
  | _, _ => NaN
  end.

(** [`${n}`]: Number::toString in radix 10, as it prints integers below
    10^21 (from there on JavaScript prints an exponent). *)
Definition toString (n : number) : string :=
  match n with
  | NaN => "NaN"
  | Int z => NilZero.string_of_int (Z.to_int z)
  end.

(** White space of [String.prototype.trim], [\s] and [parseInt]:
    TAB, LF, VT, FF, CR, SP and NBSP. *)
Definition isWhiteSpace (c : ascii) : bool :=
  let n := nat_of_ascii c in
  ((9 <=? n)%nat && (n <=? 13)%nat) || (n =? 32)%nat || (n =? 160)%nat.

(** [\d] *)
Definition isDigit (c : ascii) : bool :=
  let n := nat_of_ascii c in (48 <=? n)%nat && (n <=? 57)%nat.

Definition isEmpty (s : string) : bool :=
  match s with EmptyString => true | String _ _ => false end.

(** Truthiness of a string: [Boolean(s)], [if (s)], [!s], [s || d]. *)
Definition truthy (s : string) : bool := negb (isEmpty s).

(** [s || d] for strings. *)
Definition or_else (s d : string) : string := if truthy s then s else d.

Fixpoint trimStart (s : string) : string :=
  match s with
  | EmptyString => EmptyString
  | String c r => if isWhiteSpace c then trimStart r else s
  end.

Fixpoint trimEnd (s : string) : string :=
  match s with
  | EmptyString => EmptyString
  | String c r =>
      let r' := trimEnd r in
      if isWhiteSpace c && isEmpty r' then EmptyString else String c r'
  end.

(** [s.trim()] *)
Definition trim (s : string) : string := trimEnd (trimStart s).

(** [s.includes(c)] for a one-character needle. *)
Fixpoint includes (c : ascii) (s : string) : bool :=
  match s with
  | EmptyString => false
  | String d r => Ascii.eqb d c || includes c r
  end.

(** [s.split(sep)] for a one-character separator: never the empty list. *)
Fixpoint split (sep : ascii) (s : string) : list string :=
  match s with
  | EmptyString => [EmptyString]
  | String c r =>
      if Ascii.eqb c sep then EmptyString :: split sep r
      else match split sep r with
           | h :: t => String c h :: t
           | [] => [String c EmptyString]
           end
  end.

(** [l.join(sep)] *)
Fixpoint join (sep : string) (l : list string) : string :=
  match l with
  | [] => EmptyString
  | [x] => x
  | x :: rest => x ++ sep ++ join sep rest
  end.

(** [l.slice(1)] *)
Definition slice1 (l : list string) : list string := tl l.

(** [l.pop()] read as its result: the last element ([undefined] on an empty
    array, which [split] never returns). *)
Definition pop (l : list string) : string := last l EmptyString.

(** [l.filter(Boolean)] on an array of strings. *)
Definition filterBoolean (l : list string) : list string := filter truthy l.

(** [s.split(/\s+/)]: cut at every maximal run of white space. *)
Fixpoint split_ws (s : string) : list string :=
  match s with
  | EmptyString => [EmptyString]
  | String c r =>
      if isWhiteSpace c then
        match r with
        | EmptyString => [EmptyString; EmptyString]
        | String c' _ =>
            if isWhiteSpace c' then split_ws r else EmptyString :: split_ws r
        end
      else match split_ws r with
           | h :: t => String c h :: t
           | [] => [String c EmptyString]
           end
  end.

(** [s.startsWith(p)] *)
Definition startsWith (p s : string) : bool := prefix p s.

(** The rest of [s] after the prefix [p], if [s] starts with [p]. *)
Fixpoint stripPrefix (p s : string) : option string :=
  match p, s with
  | EmptyString, _ => Some s
  | String a p', String b s' => if Ascii.eqb a b then stripPrefix p' s' else None
  | String _ _, EmptyString => None
  end.

(** [s.substring(0, n)] *)
Definition substring0 (n : nat) (s : string) : string := substring 0 n s.

(** [s.replace(/^n/, '')] *)
Definition replace_leading_n (s : string) : string :=
  match s with
  | String "n"%char r => r
  | _ => s
  end.

(** [s.replace(pat, '')]: the first occurrence of [pat] is removed. *)
Fixpoint replace_first (pat s : string) : string :=
  match stripPrefix pat s with
  | Some r => r
  | None => match s with
            | EmptyString => EmptyString
            | String c r => String c (replace_first pat r)
            end
  end.

Fixpoint allDigits (s : string) : bool :=
  match s with
  | EmptyString => true
  | String c r => isDigit c && allDigits r
  end.

Definition digitValue (c : ascii) : Z := Z.of_nat (nat_of_ascii c) - 48.

(** Value of the longest run of decimal digits at the start of [s]. *)
Fixpoint digitsValue (acc : Z) (s : string) : Z :=
  match s with
  | EmptyString => acc
  | String c r => if isDigit c then digitsValue (10 * acc + digitValue c) r else acc
  end.

Definition startsWithDigit (s : string) : bool :=
  match s with
  | String c _ => isDigit c
  | EmptyString => false
  end.

(** [parseInt(s, 10)]: leading white space, an optional sign, then the
    longest run of digits; [NaN] when there is no digit. The value is exact;
    JavaScript rounds a run above 2^53 to the nearest double. *)
Definition parseInt (s : string) : number :=
  let t := trimStart s in
  match t with
  | String "-"%char r => if startsWithDigit r then Int (- digitsValue 0 r) else NaN
  | String "+"%char r => if startsWithDigit r then Int (digitsValue 0 r) else NaN
  | _ => if startsWithDigit t then Int (digitsValue 0 t) else NaN
  end.

(** The longest prefix without ['/'] (what a greedy [[^/]+] consumes), and
    what follows it. *)
Fixpoint span_segment (s : string) : string * string :=
  match s with
  | EmptyString => (EmptyString, EmptyString)
  | String c r =>
      if Ascii.eqb c "/" then (EmptyString, s)
      else let (w, rest) := span_segment r in (String c w, rest)
  end.

Fixpoint dropTrailingSlashes (s : string) : string :=
  match s with
  | EmptyString => EmptyString
  | String c r =>
      let r' := dropTrailingSlashes r in
      if Ascii.eqb c "/" && isEmpty r' then EmptyString else String c r'
  end.

(** [path.basename(p)] (POSIX): trailing separators are ignored, then the
    text after the last remaining separator is returned; [''] when the path
    holds separators only. *)
Definition basename (p : string) : string :=
  pop (split "/" (dropTrailingSlashes p)).

(** [Array.prototype.sort(comparefn)]: a stable sort (the engines of every
    supported Node release, 18 and later per [setup.js], sort stably). An
    element moves behind another only when [comparefn] is positive on the
    pair; a [NaN] result counts as [+0]. *)
Definition sortsAfter (A : Type) (comparefn : A -> A -> number) (a b : A) : bool :=
  match comparefn a b with
  | Int v => (0 <? v)%Z
  | NaN => false
  end.

Fixpoint sort_insert (A : Type) (comparefn : A -> A -> number) (x : A) (l : list A) : list A :=
  match l with
  | [] => [x]
  | y :: l' =>
      if sortsAfter comparefn x y then y :: sort_insert comparefn x l'
      else x :: y :: l'
  end.

Fixpoint sort (A : Type) (comparefn : A -> A -> number) (l : list A) : list A :=
  match l with
  | [] => []
  | x :: l' => sort_insert comparefn x (sort comparefn l')
  end.

(** [Map] with string keys: entries in insertion order; [set] on a present
    key replaces the value in place, on a new key appends. *)
Definition Map (V : Type) : Type := list (string * V).

Definition Map_empty (V : Type) : Map V := [].

Fixpoint Map_get (V : Type) (k : string) (m : Map V) : option V :=
  match m with
  | [] => None
  | (k', v) :: m' => if String.eqb k' k then Some v else Map_get k m'
  end.

Definition Map_has (V : Type) (k : string) (m : Map V) : bool :=
  match Map_get k m with Some _ => true | None => false end.

Fixpoint Map_set (V : Type) (k : string) (v : V) (m : Map V) : Map V :=
  match m with
  | [] => [(k, v)]
  | (k', v') :: m' =>
      if String.eqb k' k then (k', v) :: m' else (k', v') :: Map_set k v m'
  end.

(** [Array.from(m.values())] *)
Definition Map_values (V : Type) (m : Map V) : list V := map snd m.

(** JSON values: what [JSON.parse] returns and [JSON.stringify] prints. *)
Inductive json : Type :=
  | JNull : json
  | JBool : bool -> json
  | JNum : Z -> json
  | JStr : string -> json
  | JArr : list json -> json
  | JObj : list (string * json) -> json.

(** A number as [JSON.stringify] prints it: [NaN] becomes [null]. *)
Definition json_of_number (n : number) : json :=
  match n with
  | NaN => JNull
  | Int z => JNum z
  end.

(** The value thrown by a rejected promise: an [Error] and its [message]. *)
Record Error : Type := { message : string }.

End JS.


Import JS.

(** ** The host: Node's runtime and the operating system behind it *)

(** How a call completes: normally with a value, or by throwing. *)
Inductive Completion (A : Type) : Type :=
  | Normal : A -> Completion A
  | Throw : Error -> Completion A.

Arguments Normal {A} _.
Arguments Throw {A} _.

(** One row of the tracker query [SELECT id, directory_name, state]: the
    [-json] output mode of sqlite3 prints the three selected columns for every
    row. [directory_name] is [None] when the column holds no string (such a
    row is never found by [Map.get] with a string key). *)
Record WorkspaceRow : Type := {
  row_id : json;
  row_directory_name : option string;
  row_state : json
}.

(** The value stored in the lookup: [{ id: ws.id, state: ws.state }]. *)
Record WsInfo : Type := { ws_id : json; ws_state : json }.

(** What [server.js] imports and does not define.
    - [exec]: [promisify(child_process.exec)], run on the operating system
      state; resolves with the standard output or rejects with an [Error].
    - [existsSync]: [fs.existsSync].
    - [console_error]: the effect of [console.error] on the outside world.
    - [JSON_parse]: [JSON.parse] of the tracker query output, followed by the
      iteration over its rows; [None] when either throws.
    - [process_env]: [process.env], [undefined] as [None].
    - [path_join]: [path.join] on two segments.
    - [URL_pathname input base]: [new URL(input, base).pathname], [None] when
      the constructor throws.
    - [html]: the dashboard document returned by [getHTML()].
    - [overlapping_write w]: the variable [conductorWorkspaces] of line 17 is
      shared by all requests; when a request that overlaps the one followed
      has assigned it (its own line 52) after this one did and before the
      state [w], this is the value it holds, [None] when no such assignment
      happened. *)
Record Host : Type := {
  World : Type;
  exec : string -> World -> Completion string * World;
  existsSync : string -> World -> bool;
  console_error : Error -> World -> World;
  JSON_parse : string -> option (list WorkspaceRow);
  process_env : string -> option string;
  path_join : string -> string -> string;
  URL_pathname : string -> string -> option string;
  html : string;
  overlapping_write : World -> option (option (Map WsInfo))
}.

(** The double quote character inside a shell command. *)
Definition dq : string := String (ascii_of_nat 34) EmptyString.

(** A value of [PORT]: a string from the environment or the number 3847. *)
Inductive PortValue : Type :=
  | PortString : string -> PortValue
  | PortNumber : Z -> PortValue.

(** Truthy environment value: defined and not the empty string. *)
Definition env_truthy (v : option string) : option string :=
  match v with
  | Some s => if truthy s then Some s else None
  | None => None
  end.

(** One line of the socket listing that passed the two [continue] checks:
    [command], [pidNum] and [port] of lines 66-71. *)
Record RawSocket : Type := {
  raw_command : string;
  raw_pidNum : number;
  raw_port : number
}.

(** The object stored at lines 139-150, fields in the order of the literal. *)
Record ProcessEntry : Type := {
  pid : number;
  port : number;
  command : string;
  cwd : string;
  project : string;
  workspace : string;
  branch : string;
  running : string;
  workspaceId : json;
  workspaceState : json
}.

(** [projectName], [workspaceName], [workspaceId], [workspaceState] after
    lines 101-122. *)
Record ProjectInfo : Type := {
  projectName : string;
  workspaceName : string;
  info_workspaceId : json;
  info_workspaceState : json
}.

(** The object returned by [killProcess]; [error] is absent on success. *)
Record KillResult : Type := { success : bool; error : option string }.

(** What [res.end] sends. A JSON body is kept as the value handed to
    [JSON.stringify]. *)
Inductive Body : Type :=
  | NoBody : Body
  | Text : string -> Body
  | Json : json -> Body.

Record Response : Type := {
  status : Z;
  headers : list (string * string);
  body : Body
}.

Record Request : Type := { method : string; url : string }.

Definition newline : ascii := ascii_of_nat 10.

(** [name.match(/:(\d+)$/)]: the capture group of the leftmost match. *)
Fixpoint portMatch (name : string) : option string :=
  match name with
  | EmptyString => None
  | String c r =>
      if Ascii.eqb c ":" && truthy r && allDigits r then Some r else portMatch r
  end.

(** Lines 63-71: the fields of one line, or [None] where the loop says
    [continue]. *)
Definition parseLine (line : string) : option RawSocket :=
  let parts := split_ws line in
  if (length parts <? 9)%nat then None
  else
    let command := nth 0 parts EmptyString in
    let pid := nth 1 parts EmptyString in
    let name := nth 8 parts EmptyString in
    match portMatch name with
    | None => None
    | Some digits =>
        Some {| raw_command := command;
                raw_pidNum := parseInt pid;
                raw_port := parseInt digits |}
    end.

(** Line 76: [`${pidNum}-${port}`]. *)
Definition socketKey (pidNum port : number) : string :=
  toString pidNum ++ "-" ++ toString port.

(** [/\/conductor\/workspaces\/([^/]+)\/([^/]+)/] tried at the start of [s]:
    the two capture groups. Each [[^/]+] is greedy and can only end at a
    ['/'] or at the end of the input, so no shorter capture can succeed where
    the longest fails. *)
Definition conductorMatch_here (s : string) : option (string * string) :=
  match stripPrefix "/conductor/workspaces/" s with
  | None => None
  | Some r =>
      let (w, r1) := span_segment r in
      if isEmpty w then None
      else match r1 with
           | String "/"%char r2 =>
               let (p, _) := span_segment r2 in
               if isEmpty p then None else Some (w, p)
           | _ => None
           end
  end.

(** [cwd.match(...)]: the leftmost position where the expression matches. *)
Fixpoint conductorMatch (cwd : string) : option (string * string) :=
  match conductorMatch_here cwd with
  | Some m => Some m
  | None =>
      match cwd with
      | EmptyString => None
      | String _ r => conductorMatch r
      end
  end.

(** Lines 101-122, for a non-empty [cwd]; [cw] is [conductorWorkspaces]. *)
Definition resolveProject (cw : option (Map WsInfo)) (cwd : string) : ProjectInfo :=
  match conductorMatch cwd with
  | Some (w, p) =>
      match (match cw with
             | Some lookup => Map_get p lookup
             | None => None
             end) with
      | Some wsInfo =>
          {| projectName := p; workspaceName := w;
             info_workspaceId := ws_id wsInfo; info_workspaceState := ws_state wsInfo |}
      | None =>
          {| projectName := p; workspaceName := w;
             info_workspaceId := JNull; info_workspaceState := JNull |}
      end
  | None =>
      {| projectName := basename cwd; workspaceName := EmptyString;
         info_workspaceId := JNull; info_workspaceState := JNull |}
  end.

(** The initial values of lines 81-83 and 101-102, kept when [cwd] is empty. *)
Definition noProject : ProjectInfo :=
  {| projectName := EmptyString; workspaceName := EmptyString;
     info_workspaceId := JNull; info_workspaceState := JNull |}.

(** Lines 130-133: [branch.split('/').slice(1).join('/')] when the branch
    includes a ['/']. *)
Definition stripUsernamePrefix (branch : string) : string :=
  if includes "/" branch then join "/" (slice1 (split "/" branch)) else branch.

(** Lines 139-150. *)
Definition makeEntry (raw : RawSocket) (cwd : string) (info : ProjectInfo)
    (branch : string) : ProcessEntry :=
  {| pid := raw_pidNum raw;
     port := raw_port raw;
     command := substring0 20 (raw_command raw);
     cwd := cwd;
     project := or_else (projectName info) "Unknown";
     workspace := or_else (workspaceName info) "-";
     branch := or_else branch "-";
     running := "localhost:" ++ toString (raw_port raw);
     workspaceId := info_workspaceId info;
     workspaceState := info_workspaceState info |}.

(** Line 153: [(a, b) => a.port - b.port]. *)
Definition comparePorts (a b : ProcessEntry) : number := sub (port a) (port b).

(** [JSON.stringify] of one entry: the keys in insertion order. *)
Definition json_of_entry (e : ProcessEntry) : json :=
  JObj [ ("pid", json_of_number (pid e));
         ("port", json_of_number (port e));
         ("command", JStr (command e));
         ("cwd", JStr (cwd e));
         ("project", JStr (project e));
         ("workspace", JStr (workspace e));
         ("branch", JStr (branch e));
         ("running", JStr (running e));
         ("workspaceId", workspaceId e);
         ("workspaceState", workspaceState e) ].

(** [JSON.stringify] of a [killProcess] result. *)
Definition json_of_result (r : KillResult) : json :=
  JObj (("success", JBool (success r))
        :: match error r with
           | Some msg => [("error", JStr msg)]
           | None => []
           end).

Definition lsof_listen_command : string :=
  "lsof -iTCP -sTCP:LISTEN -n -P 2>/dev/null | grep -E '(localhost|127\.0\.0\.1|\*:)' || true".

Definition lsof_cwd_command (pidNum : number) : string :=
  "lsof -p " ++ toString pidNum ++ " -Fn 2>/dev/null | grep '^n.*cwd' | head -1 || true".

Definition lsof_cwd_fallback_command (pidNum : number) : string :=
  "lsof -p " ++ toString pidNum
  ++ " -a -d cwd -Fn 2>/dev/null | grep '^n/' | sed 's/^n//' || true".

Definition git_branch_command (cwd : string) : string :=
  "git -C " ++ dq ++ cwd ++ dq ++ " rev-parse --abbrev-ref HEAD 2>/dev/null || true".

Definition kill_command (pid : number) : string := "kill -9 " ++ toString pid.

Section Server.

Variable host : Host.

(** Program state: the operating system, and what the request followed
    last assigned to the module-level variable
    [let conductorWorkspaces = null] (line 17). *)
Record Realm : Type := {
  world : World host;
  conductorWorkspaces : option (Map WsInfo)
}.

Definition M (A : Type) : Type := Realm -> Completion A * Realm.

Definition ret (A : Type) (a : A) : M A := fun r => (Normal a, r).

Definition bind (A B : Type) (m : M A) (k : A -> M B) : M B :=
  fun r => match m r with
           | (Normal a, r') => k a r'
           | (Throw e, r') => (Throw e, r')
           end.

(** [try { body } catch (e) { handler(e) }] *)
Definition try_catch (A : Type) (body : M A) (handler : Error -> M A) : M A :=
  fun r => match body r with
           | (Normal a, r') => (Normal a, r')
           | (Throw e, r') => handler e r'
           end.

Notation "x <- m ;; k" := (bind m (fun x => k))
  (at level 61, m at next level, right associativity).

(** [await execAsync(cmd)], keeping [stdout]. *)
Definition execAsync (cmd : string) : M string :=
  fun r => let (c, w) := exec host cmd (world r) in
           (c, {| world := w; conductorWorkspaces := conductorWorkspaces r |}).

Definition fs_existsSync (path : string) : M bool :=
  fun r => (Normal (existsSync host path (world r)), r).

Definition console_error_ (e : Error) : M unit :=
  fun r => (Normal tt, {| world := console_error host e (world r);
                          conductorWorkspaces := conductorWorkspaces r |}).

(** Reading [conductorWorkspaces] (line 112): the assignment of an
    overlapping request, if one came after this request's own. *)
Definition read_conductorWorkspaces : M (option (Map WsInfo)) :=
  fun r => (Normal (match overlapping_write host (world r) with
                    | Some written => written
                    | None => conductorWorkspaces r
                    end), r).

Definition write_conductorWorkspaces (v : option (Map WsInfo)) : M unit :=
  fun r => (Normal tt, {| world := world r; conductorWorkspaces := v |}).

(** Line 8: [process.env.CONDUCTOR_PORT || process.env.PORT || 3847]. *)
Definition PORT : PortValue :=
  match env_truthy (process_env host "CONDUCTOR_PORT") with
  | Some s => PortString s
  | None =>
      match env_truthy (process_env host "PORT") with
      | Some s => PortString s
      | None => PortNumber 3847
      end
  end.

(** [`${PORT}`] *)
Definition PORT_toString : string :=
  match PORT with
  | PortString s => s
  | PortNumber z => toString (Int z)
  end.

(** Lines 11-14. [process.env.HOME || ''] *)
Definition CONDUCTOR_DB : string :=
  path_join host
    (match env_truthy (process_env host "HOME") with
     | Some h => h
     | None => EmptyString
     end)
    "Library/Application Support/com.conductor.app/conductor.db".

Definition workspaces_query : string :=
  "SELECT id, directory_name, state FROM workspaces WHERE state != 'archived'".

Definition sqlite_command : string :=
  "sqlite3 -json " ++ dq ++ CONDUCTOR_DB ++ dq ++ " " ++ dq ++ workspaces_query ++ dq
  ++ " 2>/dev/null || true".

(** Lines 37-40: the lookup by [directory_name]. *)
Fixpoint build_lookup (rows : list WorkspaceRow) (lookup : Map WsInfo) : Map WsInfo :=
  match rows with
  | [] => lookup
  | ws :: rows' =>
      build_lookup rows'
        (match row_directory_name ws with
         | Some name => Map_set name {| ws_id := row_id ws; ws_state := row_state ws |} lookup
         | None => lookup
         end)
  end.

(** Lines 20-46. [None] is [null]. *)
Definition getConductorWorkspaces : M (option (Map WsInfo)) :=
  try_catch
    (present <- fs_existsSync CONDUCTOR_DB ;;
     if negb present then ret None
     else
       stdout <- execAsync sqlite_command ;;
       if negb (truthy (trim stdout)) then ret None
       else
         match JSON_parse host stdout with
         | Some workspaces => ret (Some (build_lookup workspaces (Map_empty WsInfo)))
         | None => fun r => (Throw {| message := "Unexpected token" |}, r)
         end)
    (fun _ => ret None).

(** Lines 80, 85-98. Every throwing call of the block precedes the
    assignment that follows it, and the second call is made only while [cwd]
    is still empty: when the block throws, [cwd] is the empty string. *)
Definition resolveCwd (pidNum : number) : M string :=
  try_catch
    (cwdOutput <- execAsync (lsof_cwd_command pidNum) ;;
     let cwd := if truthy cwdOutput
                then trim (replace_first "cwd" (replace_leading_n cwdOutput))
                else EmptyString in
     if negb (truthy cwd) then
       pwdOutput <- execAsync (lsof_cwd_fallback_command pidNum) ;;
       ret (trim pwdOutput)
     else ret cwd)
    (fun _ => ret EmptyString).

(** Lines 83, 125-136. *)
Definition resolveBranch (cwd : string) : M string :=
  try_catch
    (branchOutput <- execAsync (git_branch_command cwd) ;;
     ret (stripUsernamePrefix (trim branchOutput)))
    (fun _ => ret EmptyString).

(** Lines 62-151: one iteration of [for (const line of lines)]. *)
Definition processLine (line : string) (processes : Map ProcessEntry)
    : M (Map ProcessEntry) :=
  match parseLine line with
  | None => ret processes
  | Some raw =>
      let key := socketKey (raw_pidNum raw) (raw_port raw) in
      if Map_has key processes then ret processes
      else
        cwd <- resolveCwd (raw_pidNum raw) ;;
        if truthy cwd then
          cw <- read_conductorWorkspaces ;;
          branch <- resolveBranch cwd ;;
          ret (Map_set key (makeEntry raw cwd (resolveProject cw cwd) branch) processes)
        else
          ret (Map_set key (makeEntry raw cwd noProject EmptyString) processes)
  end.

Fixpoint forEachLine (lines : list string) (processes : Map ProcessEntry)
    : M (Map ProcessEntry) :=
  match lines with
  | [] => ret processes
  | line :: rest =>
      processes' <- processLine line processes ;;
      forEachLine rest processes'
  end.

(** Lines 49-158. *)
Definition getLocalhostProcesses : M (list ProcessEntry) :=
  try_catch
    (cw <- getConductorWorkspaces ;;
     _ <- write_conductorWorkspaces cw ;;
     stdout <- execAsync lsof_listen_command ;;
     let lines := filterBoolean (split newline (trim stdout)) in
     processes <- forEachLine lines (Map_empty ProcessEntry) ;;
     ret (sort comparePorts (Map_values processes)))
    (fun error =>
       _ <- console_error_ error ;;
       ret []).

(** Lines 161-168. *)
Definition killProcess (pid : number) : M KillResult :=
  try_catch
    (_ <- execAsync (kill_command pid) ;;
     ret {| success := true; error := None |})
    (fun error => ret {| success := false; error := Some (message error) |}).

Definition getHTML : string := html host.

(** Lines 539-540, set on every response before the routes are tried. *)
Definition cors_headers : list (string * string) :=
  [ ("Access-Control-Allow-Origin", "*");
    ("Access-Control-Allow-Methods", "GET, POST, OPTIONS") ].

(** [new URL(req.url, `http://localhost:${PORT}`)], keeping [pathname]. *)
Definition new_URL_pathname (input : string) : M string :=
  fun r => match URL_pathname host input ("http://localhost:" ++ PORT_toString) with
           | Some pathname => (Normal pathname, r)
           | None => (Throw {| message := "Invalid URL" |}, r)
           end.

(** Lines 536-577: the request listener, returning the response it writes. *)
Definition server (req : Request) : M Response :=
  pathname <- new_URL_pathname (url req) ;;
  if String.eqb (method req) "OPTIONS" then
    ret {| status := 200; headers := cors_headers; body := NoBody |}
  else if String.eqb pathname "/api/processes" && String.eqb (method req) "GET" then
    processes <- getLocalhostProcesses ;;
    ret {| status := 200;
           headers := (cors_headers ++ [("Content-Type", "application/json")])%list;
           body := Json (JArr (map json_of_entry processes)) |}
  else if startsWith "/api/kill/" pathname && String.eqb (method req) "POST" then
    let pid := parseInt (pop (split "/" pathname)) in
    result <- killProcess pid ;;
    ret {| status := 200;
           headers := (cors_headers ++ [("Content-Type", "application/json")])%list;
           body := Json (json_of_result result) |}
  else if String.eqb pathname "/" || String.eqb pathname "/index.html" then
    ret {| status := 200;
           headers := (cors_headers ++ [("Content-Type", "text/html")])%list;
           body := Text getHTML |}
  else
    ret {| status := 404; headers := cors_headers; body := Text "Not Found" |}.

End Server.

(** ** Vocabulary of the specification *)

(** The raw sockets of a listing: the lines that survive line 59 and the two
    [continue] checks, in order. *)
Fixpoint socketsOfLines (lines : list string) : list RawSocket :=
  match lines with
  | [] => []
  | line :: rest =>
      match parseLine line with
      | Some raw => raw :: socketsOfLines rest
      | None => socketsOfLines rest
      end
  end.

Definition rawSockets (stdout : string) : list RawSocket :=
  socketsOfLines (filterBoolean (split newline (trim stdout))).

(** Two raw sockets with the same identity [(pid, port)]. *)
Definition sameSocket (p q : number) (raw : RawSocket) : bool :=
  number_eqb (raw_pidNum raw) p && number_eqb (raw_port raw) q.

(** The first raw occurrence of the pair [(p, q)]. *)
Definition firstRaw (p q : number) (raws : list RawSocket) : option RawSocket :=
  find (sameSocket p q) raws.

(** The first occurrence of every pair, in discovery order; [seen] holds the
    sockets met so far. *)
Fixpoint firstSockets (seen raws : list RawSocket) : list RawSocket :=
  match raws with
  | [] => []
  | raw :: rest =>
      if existsb (sameSocket (raw_pidNum raw) (raw_port raw)) seen
      then firstSockets seen rest
      else raw :: firstSockets (seen ++ [raw])%list rest
  end.

(** The identity [(pid, port)] of a raw socket. *)
Definition rawIdentity (raw : RawSocket) : number * number :=
  (raw_pidNum raw, raw_port raw).

(** The identity key of an entry. *)
Definition identity (e : ProcessEntry) : number * number := (pid e, port e).

Definition hasPort (p : number) (e : ProcessEntry) : bool := number_eqb (port e) p.

(** An entry built from the raw socket [raw] by the literal of lines
    139-150. *)
Definition EntryOf (raw : RawSocket) (e : ProcessEntry) : Prop :=
  exists cwd info branch, e = makeEntry raw cwd info branch.

(** The loop invariant of lines 62-151: [processes] holds, in order, one
    entry for each socket of [seen], under the key of line 76. *)
Definition Discovered (processes : Map ProcessEntry) (seen : list RawSocket) : Prop :=
  Forall2 (fun kv raw =>
             fst kv = socketKey (raw_pidNum raw) (raw_port raw) /\
             EntryOf raw (snd kv))
          processes seen.

(** A port as [parseInt] reads it from [\d+]: a non-negative integer. *)
Definition isPort (n : number) : Prop := exists z, n = Int z /\ (0 <= z)%Z.

(** Non-decreasing ports. *)
Definition port_le (a b : ProcessEntry) : Prop :=
  exists x y, port a = Int x /\ port b = Int y /\ (x <= y)%Z.

Definition noSlash (s : string) : Prop := includes "/" s = false.

(** [cwd] holds, after [pre], the text [/conductor/workspaces/W/P] with [W]
    and [P] whole non-empty path segments. *)
Definition conductorPathAt (cwd pre W P rest : string) : Prop :=
  cwd = pre ++ "/conductor/workspaces/" ++ W ++ "/" ++ P ++ rest /\
  W <> EmptyString /\ noSlash W /\
  P <> EmptyString /\ noSlash P /\
  (rest = EmptyString \/ exists rest', rest = String "/" rest').

(** The pattern of the specification, [.../<namespace>/workspaces/W/P/...],
    with any namespace segment. *)
Definition specNestedPath (cwd W P : string) : Prop :=
  exists pre ns rest,
    cwd = pre ++ "/" ++ ns ++ "/workspaces/" ++ W ++ "/" ++ P ++ rest /\
    ns <> EmptyString /\ noSlash ns /\
    W <> EmptyString /\ noSlash W /\
    P <> EmptyString /\ noSlash P /\
    (rest = EmptyString \/ exists rest', rest = String "/" rest').

(** [name] is the final path component of [path]: the last non-empty
    segment, trailing separators aside. *)
Definition finalComponent (path name : string) : Prop :=
  exists dir slashes,
    path = dir ++ name ++ slashes /\
    (dir = EmptyString \/ exists d, dir = d ++ "/") /\
    name <> EmptyString /\ noSlash name /\
    dropTrailingSlashes slashes = EmptyString.

(** The port as the specification words it: the primary variable if set,
    else the secondary if set, else 3847. *)
Definition spec_PORT (env : string -> option string) : PortValue :=
  match env "CONDUCTOR_PORT" with
  | Some s => PortString s
  | None =>
      match env "PORT" with
      | Some s => PortString s
      | None => PortNumber 3847
      end
  end.

(** The field names of ProcessEntry in the data model of the specification. *)
Definition spec_fields : list string :=
  [ "pid"; "port"; "command"; "workingDirectory"; "project"; "workspace"; "branch";
    "trackerId"; "trackerState" ].

(** The keys of the object literal of lines 139-150. *)
Definition entry_fields : list string :=
  [ "pid"; "port"; "command"; "cwd"; "project"; "workspace"; "branch";
    "running"; "workspaceId"; "workspaceState" ].

Definition keysOf (v : json) : option (list string) :=
  match v with
  | JObj fields => Some (map fst fields)
  | _ => None
  end.

Definition fieldOf (k : string) (v : json) : option json :=
  match v with
  | JObj fields => Map_get k fields
  | _ => None
  end.

(** ** A concrete machine, to run the model on *)

Module Demo.

Definition lines (l : list string) : string := join (String newline EmptyString) l.

(** The socket listing: pid 100 holds port 3000 through two descriptors. *)
Definition listing : string :=
  lines [ "node 200 me 21u IPv4 0x1 0t0 TCP *:8080 (LISTEN)";
          "node 100 me 23u IPv4 0x2 0t0 TCP 127.0.0.1:3000 (LISTEN)";
          "beam.smp-erlang-runtime-27 100 me 24u IPv6 0x3 0t0 TCP *:3000 (LISTEN)";
          "ruby 300 me 9u IPv4 0x4 0t0 TCP *:3000 (LISTEN)";
          "short line";
          "postgres 400 me 7u IPv4 0x5 0t0 TCP localhost (LISTEN)" ]
  ++ String newline EmptyString.

Definition command_failed (cmd stderr : string) : Completion string :=
  Throw {| message := "Command failed: " ++ cmd ++ String newline stderr |}.

(** The answers of the shell, by command. *)
Definition shell (db : string) : list (string * Completion string) :=
  [ (lsof_listen_command, Normal listing);
    (lsof_cwd_fallback_command (Int 100),
       Normal ("/Users/x/conductor/workspaces/ws-1/myapp/src" ++ String newline EmptyString));
    (lsof_cwd_fallback_command (Int 200),
       Normal ("/Users/x/dev/workspaces/ws-2/blog" ++ String newline EmptyString));
    (git_branch_command "/Users/x/conductor/workspaces/ws-1/myapp/src",
       Normal ("alice/feat/sub" ++ String newline EmptyString));
    (git_branch_command "/Users/x/dev/workspaces/ws-2/blog",
       Normal ("main" ++ String newline EmptyString));
    ("sqlite3 -json " ++ dq ++ db ++ dq ++ " " ++ dq
       ++ "SELECT id, directory_name, state FROM workspaces WHERE state != 'archived'"
       ++ dq ++ " 2>/dev/null || true",
       Normal "[rows]");
    (kill_command (Int 12), Normal EmptyString);
    (kill_command (Int 99999),
       command_failed (kill_command (Int 99999)) "/bin/sh: kill: (99999) - No such process");
    (kill_command NaN,
       command_failed (kill_command NaN)
         "/bin/sh: kill: NaN: arguments must be process or job IDs") ].

(** The world counts the commands run; unknown commands print nothing. *)
Definition run (table : list (string * Completion string)) (cmd : string) (w : nat)
    : Completion string * nat :=
  match Map_get cmd table with
  | Some c => (c, S w)
  | None => (Normal EmptyString, S w)
  end.

Definition rows : list WorkspaceRow :=
  [ {| row_id := JStr "w-17"; row_directory_name := Some "myapp"; row_state := JStr "active" |} ].

Definition environment (vars : list (string * string)) (name : string) : option string :=
  Map_get name vars.

Definition join_paths (a b : string) : string :=
  if isEmpty a then b else a ++ "/" ++ b.

Definition database : string :=
  join_paths "/Users/x" "Library/Application Support/com.conductor.app/conductor.db".

(** A machine with the environment [vars] and the shell answers [table];
    the tracker database exists when [tracked] holds. *)
Definition machine (vars : list (string * string)) (tracked : bool)
    (table : list (string * Completion string)) : Host :=
  {| World := nat;
     exec := run table;
     existsSync := fun _ _ => tracked;
     console_error := fun _ w => w;
     JSON_parse := fun s => if String.eqb s "[rows]" then Some rows else None;
     process_env := environment vars;
     path_join := join_paths;
     URL_pathname := fun input _ => if startsWith "/" input then Some input else None;
     html := "<!DOCTYPE html>";
     overlapping_write := fun _ => None |}.

Definition host : Host := machine [("HOME", "/Users/x")] true (shell database).

(** The same machine without a tracker database. *)
Definition untracked : Host := machine [("HOME", "/Users/x")] false (shell database).

(** A machine whose socket listing overflows the output buffer of [exec]. *)
Definition broken : Host :=
  machine [("HOME", "/Users/x")] false
    [ (lsof_listen_command, Throw {| message := "stdout maxBuffer length exceeded" |}) ].

(** A machine started as [CONDUCTOR_PORT= PORT=8080 node server.js]. *)
Definition empty_primary : Host :=
  machine [("CONDUCTOR_PORT", EmptyString); ("PORT", "8080")] false [].

(** A machine started as [CONDUCTOR_PORT=4000 node server.js]. *)
Definition primary_4000 : Host := machine [("CONDUCTOR_PORT", "4000")] false [].

Definition carries_message (c : Completion string) : bool :=
  match c with
  | Throw e => truthy (message e)
  | Normal _ => true
  end.

Definition start (h : Host) (w : World h) : Realm h :=
  {| world := w; conductorWorkspaces := None |}.

Definition get (path : string) : Request := {| method := "GET"; url := path |}.

Definition post (path : string) : Request := {| method := "POST"; url := path |}.

End Demo.

(** ** Further vocabulary: the rest of [server.js] *)

(** The row [ws] is filed under [name] by line 39. *)
Definition rowNamed (name : string) (ws : WorkspaceRow) : bool :=
  match row_directory_name ws with
  | Some n => String.eqb n name
  | None => false
  end.

(** What [lookup.get(name)] is expected to hold: the columns of the last row
    filed under [name]. *)
Definition lastRow (name : string) (rows : list WorkspaceRow) : option WsInfo :=
  match find (rowNamed name) (rev rows) with
  | Some ws => Some {| ws_id := row_id ws; ws_state := row_state ws |}
  | None => None
  end.

(** A string free of white space. *)
Fixpoint noWhiteSpace (s : string) : bool :=
  match s with
  | EmptyString => true
  | String c r => negb (isWhiteSpace c) && noWhiteSpace r
  end.

(** A field of a listing line: not empty, no white space. *)
Definition isField (s : string) : bool := truthy s && noWhiteSpace s.


(** A value [conductorWorkspaces] can be read as by a request that assigned
    it [own]: that value, or what an overlapping request assigned since. *)
Definition Visible (host : Host) (own snapshot : option (Map WsInfo)) : Prop :=
  snapshot = own \/ exists w, overlapping_write host w = Some snapshot.

(** An entry as lines 80-150 enrich it in a request that assigned [own] to
    [conductorWorkspaces]: the working directory is what the lookup of the
    process returned, trimmed; the project information is resolved from a
    non-empty working directory against the snapshot read at line 112, and
    left at its initial values (with no branch) when the directory is
    empty. *)
Definition Enriched (host : Host) (own : option (Map WsInfo)) (e : ProcessEntry) : Prop :=
  exists raw dir b snapshot,
    e = makeEntry raw dir (if truthy dir then resolveProject snapshot dir else noProject) b /\
    Visible host own snapshot /\
    trim dir = dir /\
    (dir = EmptyString -> b = EmptyString) /\
    exists r0 : Realm host, fst (resolveCwd (raw_pidNum raw) r0) = Normal dir.

(** *** The dashboard script (the [<script>] of [getHTML], lines 385-533)

    The script runs in the browser on the parsed answer of
    [GET /api/processes]; its pure expressions are read here on the entries
    themselves. *)

Module Dashboard.

(** Line 404: [processes.filter(p => p.workspace !== '-')]. *)
Definition dev (processes : list ProcessEntry) : list ProcessEntry :=
  filter (fun p => negb (String.eqb (workspace p) "-")) processes.

(** Line 405: [processes.filter(p => p.workspace === '-')]. *)
Definition system (processes : list ProcessEntry) : list ProcessEntry :=
  filter (fun p => String.eqb (workspace p) "-") processes.

(** [p.pid] in a string concatenation, after the JSON round trip: a number
    prints in decimal, and [NaN], sent as [null], prints as [null]. *)
Definition pidText (p : number) : string :=
  match json_of_number p with
  | JNum z => toString (Int z)
  | _ => "null"
  end.

(** Line 499: ['kill -9 ' + pid]. *)
Definition copyKill_text (p : number) : string := "kill -9 " ++ pidText p.


End Dashboard.

(** ** The set-up script [setup.js] *)

Module Setup.

(** How a call of the script ends: it returns, the process exits, or an
    exception escapes. *)
Inductive Step (A : Type) : Type :=
  | Done : A -> Step A
  | Exit : Z -> Step A
  | Raise : Error -> Step A.

Arguments Done {A} _.
Arguments Exit {A} _.
Arguments Raise {A} _.

Inductive Stream : Type := Out | Err.

(** The machine the script runs on: [process.version], the working directory
    as a map from path to content (a directory is a path like any other),
    and the lines printed so far, oldest first. *)
Record Machine : Type := {
  node_version : string;
  disk : Map string;
  console : list (Stream * string)
}.

(** What the script imports.
    - [dependency_count text]: [JSON.parse(text)] followed by
      [pkg.dependencies && Object.keys(pkg.dependencies).length]; [None] when
      this throws, [Some None] when [pkg.dependencies] is falsy.
    - [npm_install]: the effect of [execSync('npm install')] on the
      directory, or the error it throws.
    - [write_error path d]: the error [fs.writeFileSync(path, ...)] throws on
      the directory [d] (read-only, full), [None] when the write goes
      through.
    - [read_error path d]: the error [fs.readFileSync(path, ...)] throws on
      a path that exists (no permission, a directory), [None] when the read
      goes through. *)
Record Tools : Type := {
  dependency_count : string -> option (option nat);
  npm_install : Map string -> Completion (Map string);
  write_error : string -> Map string -> option Error;
  read_error : string -> Map string -> option Error
}.

Definition Script (A : Type) : Type := Machine -> Step A * Machine.

Definition print (to : Stream) (line : string) (m : Machine) : Machine :=
  {| node_version := node_version m;
     disk := disk m;
     console := (console m ++ [(to, line)])%list |}.

Definition with_disk (d : Map string) (m : Machine) : Machine :=
  {| node_version := node_version m; disk := d; console := console m |}.

(** [a; b] *)
Definition andThen (A B : Type) (a : Script A) (b : Script B) : Script B :=
  fun m => match a m with
           | (Done _, m') => b m'
           | (Exit code, m') => (Exit code, m')
           | (Raise e, m') => (Raise e, m')
           end.

Definition MIN_NODE_VERSION : number := Int 18.

(** [a < b] on numbers: false when either is [NaN]. *)
Definition lessThan (a b : number) : bool :=
  match a, b with
  | Int x, Int y => (x <? y)%Z
  | _, _ => false
  end.

(** [s.slice(1)] on a string. *)
Definition string_slice1 (s : string) : string :=
  match s with
  | EmptyString => EmptyString
  | String _ r => r
  end.

(** Line 9: [parseInt(process.version.slice(1).split('.')[0], 10)]. *)
Definition majorVersion (v : string) : number :=
  parseInt (hd EmptyString (split "." (string_slice1 v))).

(** Lines 8-15. *)
Definition checkNodeVersion : Script unit :=
  fun m =>
    let version := majorVersion (node_version m) in
    if lessThan version MIN_NODE_VERSION then
      (Exit 1,
       print Err ("❌ Node.js " ++ toString MIN_NODE_VERSION ++ "+ required (found "
                  ++ node_version m ++ ")") m)
    else (Done tt, print Out ("✓ Node.js " ++ node_version m) m).

Section WithTools.

Variable tools : Tools.

(** Lines 17-24. Nothing catches what [fs.writeFileSync] throws. *)
Definition ensureNvmrc : Script unit :=
  fun m =>
    if negb (Map_has ".nvmrc" (disk m)) then
      match write_error tools ".nvmrc" (disk m) with
      | Some e => (Raise e, m)
      | None =>
          (Done tt,
           print Out "✓ Created .nvmrc (Node 22)"
             (with_disk (Map_set ".nvmrc" ("22" ++ String newline EmptyString) (disk m)) m))
      end
    else (Done tt, print Out "✓ .nvmrc exists" m).

(** [fs.readFileSync(path, 'utf-8')]: the content, or the error thrown. *)
Definition readFileSync (path : string) (d : Map string) : Completion string :=
  match Map_get path d with
  | None =>
      Throw {| message := "ENOENT: no such file or directory, open '" ++ path ++ "'" |}
  | Some text =>
      match read_error tools path d with
      | Some e => Throw e
      | None => Normal text
      end
  end.

(** Lines 26-38. *)
Definition checkDependencies : Script unit :=
  fun m =>
    match readFileSync "package.json" (disk m) with
    | Throw e => (Raise e, m)
    | Normal text =>
        match dependency_count tools text with
        | None => (Raise {| message := "Unexpected token" |}, m)
        | Some deps =>
            let hasDeps := match deps with
                           | Some n => (0 <? n)%nat
                           | None => false
                           end in
            if hasDeps && negb (Map_has "node_modules" (disk m)) then
              let m1 := print Out "Installing dependencies..." m in
              match npm_install tools (disk m1) with
              | Normal d => (Done tt, with_disk d m1)
              | Throw e => (Raise e, m1)
              end
            else if negb hasDeps then (Done tt, print Out "✓ No dependencies needed" m)
            else (Done tt, print Out "✓ Dependencies installed" m)
        end
    end.

(** Lines 40-44: the script itself. *)
Definition main : Script unit :=
  andThen (fun m => (Done tt, print Out ("Setting up locohost..." ++ String newline EmptyString) m))
    (andThen checkNodeVersion
       (andThen ensureNvmrc
          (andThen checkDependencies
             (fun m => (Done tt,
                        print Out (String newline "✓ Ready! Run: npm run dev") m))))).

End WithTools.



Definition fresh_checkout (v : string) : Machine :=
  {| node_version := v;
     disk := [("package.json", "{}")];
     console := [] |}.

End Setup.

(** ** More machines to run the model on *)

Module Scenes.

(** Process 7 holds open a file whose name contains [cwd]: the first query
    of the working-directory lookup answers. *)
Definition primary_answers : Host :=
  Demo.machine [] false
    [ (lsof_cwd_command (Int 7),
         Normal ("n/home/me/cwd-tools" ++ String newline EmptyString)) ].

(** The first query of the working-directory lookup overflows its buffer. *)
Definition primary_throws : Host :=
  Demo.machine [] false
    [ (lsof_cwd_command (Int 7),
         Throw {| message := "stdout maxBuffer length exceeded" |}) ].

(** A project that declares dependencies. *)
Definition npm_tools : Setup.Tools :=
  {| Setup.dependency_count := fun _ => Some (Some 2%nat);
     Setup.npm_install := fun d => Normal (Map_set "node_modules" EmptyString d);
     Setup.write_error := fun _ _ => None;
     Setup.read_error := fun _ _ => None |}.

(** The machine of [Demo.untracked], its tracker database absent, while an
    overlapping request, started when the database was there, has left its
    snapshot in [conductorWorkspaces]. *)
Definition overlapped : Host :=
  {| World := nat;
     exec := Demo.run (Demo.shell Demo.database);
     existsSync := fun _ _ => false;
     console_error := fun _ w => w;
     JSON_parse := fun _ => None;
     process_env := Demo.environment [("HOME", "/Users/x")];
     path_join := Demo.join_paths;
     URL_pathname := fun input _ => if startsWith "/" input then Some input else None;
     html := "<!DOCTYPE html>";
     overlapping_write := fun _ =>
       Some (Some [("myapp", {| ws_id := JStr "w-17"; ws_state := JStr "active" |})]) |}.

End Scenes.

(** ** Facts about the built-ins *)

Section StringFacts.

Lemma isEmpty_true (s : string) : isEmpty s = true <-> s = EmptyString.
Proof. destruct s; simpl; split; intros H; congruence. Qed.

Lemma truthy_true (s : string) : truthy s = true <-> s <> EmptyString.
Proof. destruct s; unfold truthy; simpl; split; intros H; congruence. Qed.

Lemma or_else_truthy (s d : string) : s <> EmptyString -> or_else s d = s.
Proof. destruct s; unfold or_else, truthy; simpl; congruence. Qed.

Lemma or_else_empty (d : string) : or_else EmptyString d = d.
Proof. reflexivity. Qed.

Lemma or_else_nonempty (s d : string) : d <> EmptyString -> or_else s d <> EmptyString.
Proof. destruct s; unfold or_else, truthy; simpl; [auto | discriminate]. Qed.

Lemma substring0_length (n : nat) (s : string) : (String.length (substring0 n s) <= n)%nat.
Proof.
  unfold substring0. revert s.
  induction n as [|n IH]; intros [|c s]; simpl; try lia.
  specialize (IH s). lia.
Qed.

Lemma append_String (c : ascii) (a b : string) : String c a ++ b = String c (a ++ b).
Proof. reflexivity. Qed.

Lemma append_assoc (a b c : string) : (a ++ b) ++ c = a ++ b ++ c.
Proof. induction a as [|x a IH]; simpl; [reflexivity | now rewrite IH]. Qed.

Lemma append_empty_r (a : string) : a ++ EmptyString = a.
Proof. induction a as [|x a IH]; simpl; [reflexivity | now rewrite IH]. Qed.

Lemma length_append (a b : string) :
  String.length (a ++ b) = (String.length a + String.length b)%nat.
Proof. induction a as [|x a IH]; simpl; [reflexivity | now rewrite IH]. Qed.

Lemma includes_append (c : ascii) (a b : string) :
  includes c (a ++ b) = includes c a || includes c b.
Proof.
  induction a as [|x a IH]; simpl; [reflexivity|].
  rewrite IH. now rewrite orb_assoc.
Qed.

(** A separator that occurs in neither tail cuts a string in one way only. *)
Lemma last_separator_unique (c : ascii) (a a' b b' : string) :
  includes c b = false -> includes c b' = false ->
  a ++ String c b = a' ++ String c b' -> a = a' /\ b = b'.
Proof.
  intros Hb Hb'. revert a'.
  induction a as [|x a IH]; intros [|x' a']; simpl; intros E.
  - injection E as ->. auto.
  - injection E as <- ->.
    rewrite includes_append in Hb. simpl in Hb.
    rewrite Ascii.eqb_refl in Hb. simpl in Hb.
    rewrite orb_true_r in Hb. discriminate.
  - injection E as -> <-.
    rewrite includes_append in Hb'. simpl in Hb'.
    rewrite Ascii.eqb_refl in Hb'. simpl in Hb'.
    rewrite orb_true_r in Hb'. discriminate.
  - injection E as -> E. destruct (IH _ E) as [-> ->]. auto.
Qed.

(** *** Decimal printing *)

Lemma uint_digits_no_dash (d : Decimal.uint) :
  includes "-" (NilEmpty.string_of_uint d) = false.
Proof. induction d; simpl; auto. Qed.

Lemma toString_nonneg_no_dash (z : Z) :
  (0 <= z)%Z -> includes "-" (toString (Int z)) = false.
Proof.
  intros Hz. destruct z as [|p|p]; simpl; [reflexivity | | lia].
  unfold NilZero.string_of_uint.
  destruct (Pos.to_uint p) eqn:E; try reflexivity;
    rewrite <- E; apply uint_digits_no_dash.
Qed.

Lemma to_int_not_nil (z : Z) :
  Z.to_int z <> Decimal.Pos Decimal.Nil /\ Z.to_int z <> Decimal.Neg Decimal.Nil.
Proof.
  destruct z as [|p|p]; simpl; split; try discriminate;
    intros E; injection E; apply Unsigned.to_uint_nonnil.
Qed.

Lemma int_of_toString (z : Z) :
  NilZero.int_of_string (toString (Int z)) = Some (Z.to_int z).
Proof.
  simpl. destruct (to_int_not_nil z). now apply NilZero.isi.
Qed.

Lemma toString_inj (a b : number) : toString a = toString b -> a = b.
Proof.
  destruct a as [|x], b as [|y]; intros E.
  - reflexivity.
  - apply (f_equal NilZero.int_of_string) in E.
    rewrite int_of_toString in E. discriminate.
  - apply (f_equal NilZero.int_of_string) in E.
    rewrite int_of_toString in E. discriminate.
  - apply (f_equal NilZero.int_of_string) in E.
    rewrite !int_of_toString in E. injection E as E.
    f_equal. now apply DecimalZ.to_int_inj.
Qed.

(** The key of line 76 identifies the pair [(pid, port)]. *)
Lemma socketKey_inj (p q p' q' : number) :
  isPort q -> isPort q' -> socketKey p q = socketKey p' q' -> p = p' /\ q = q'.
Proof.
  intros (z & -> & Hz) (z' & -> & Hz') E.
  unfold socketKey in E.
  change ("-" ++ toString (Int z)) with (String "-" (toString (Int z))) in E.
  change ("-" ++ toString (Int z')) with (String "-" (toString (Int z'))) in E.
  apply last_separator_unique in E; try now apply toString_nonneg_no_dash.
  destruct E as [E1 E2]. split; now apply toString_inj.
Qed.

(** *** [parseInt] on the capture of [/:(\d+)$/] *)

Lemma digit_facts (c : ascii) :
  isDigit c = true ->
  isWhiteSpace c = false /\ c <> "-"%char /\ c <> "+"%char /\ (0 <= digitValue c)%Z.
Proof.
  destruct c as [[] [] [] [] [] [] [] []]; intros H; try discriminate H;
    (repeat split; [discriminate | discriminate | discriminate]).
Qed.

Lemma digitsValue_nonneg (s : string) (acc : Z) :
  (0 <= acc)%Z -> (0 <= digitsValue acc s)%Z.
Proof.
  revert acc. induction s as [|c s IH]; intros acc Hacc; cbn [digitsValue]; [assumption|].
  destruct (isDigit c) eqn:Hc; [|assumption].
  apply IH. destruct (digit_facts c Hc) as (_ & _ & _ & Hd). lia.
Qed.

Lemma parseInt_digit_start (c : ascii) (r : string) :
  isDigit c = true -> parseInt (String c r) = Int (digitsValue 0 (String c r)).
Proof.
  destruct c as [[] [] [] [] [] [] [] []]; intros H; try discriminate H; reflexivity.
Qed.

Lemma portMatch_digits (name digits : string) :
  portMatch name = Some digits -> digits <> EmptyString /\ allDigits digits = true.
Proof.
  induction name as [|c r IH]; simpl; [discriminate|].
  destruct (Ascii.eqb c ":" && truthy r && allDigits r) eqn:E; [|exact IH].
  intros [= <-]. apply andb_prop in E as [E1 E2]. apply andb_prop in E1 as [_ E1].
  split; [now apply truthy_true | assumption].
Qed.

Lemma parseInt_port (digits : string) :
  digits <> EmptyString -> allDigits digits = true -> isPort (parseInt digits).
Proof.
  destruct digits as [|c r]; [congruence|]. intros _ H. simpl in H.
  apply andb_prop in H as [Hc _].
  rewrite (parseInt_digit_start _ r Hc).
  eexists; split; [reflexivity|]. now apply digitsValue_nonneg.
Qed.

Lemma parseLine_port (line : string) (raw : RawSocket) :
  parseLine line = Some raw -> isPort (raw_port raw).
Proof.
  unfold parseLine. destruct (length (split_ws line) <? 9)%nat; [discriminate|].
  destruct (portMatch _) as [digits|] eqn:E; [|discriminate].
  intros [= <-]. simpl. apply portMatch_digits in E as [E1 E2].
  now apply parseInt_port.
Qed.

(** *** [split], [join] and the branch prefix *)

Lemma split_nonempty (sep : ascii) (s : string) : split sep s <> [].
Proof.
  destruct s as [|c r]; simpl; [discriminate|].
  destruct (Ascii.eqb c sep); [discriminate|].
  destruct (split sep r); discriminate.
Qed.

Lemma split_append (sep : ascii) (a b : string) :
  split sep (a ++ String sep b) = (split sep a ++ split sep b)%list.
Proof.
  induction a as [|c a IH]; simpl.
  - now rewrite Ascii.eqb_refl.
  - destruct (Ascii.eqb c sep); [now rewrite IH|].
    rewrite IH. destruct (split sep a) as [|h t] eqn:E; [|reflexivity].
    now apply split_nonempty in E.
Qed.

Lemma split_no_separator (sep : ascii) (s : string) :
  includes sep s = false -> split sep s = [s].
Proof.
  induction s as [|c r IH]; simpl; [reflexivity|].
  destruct (Ascii.eqb c sep); simpl; [discriminate|].
  intros H. now rewrite (IH H).
Qed.

Lemma join_split (sep : ascii) (s : string) :
  join (String sep EmptyString) (split sep s) = s.
Proof.
  induction s as [|c r IH]; simpl; [reflexivity|].
  destruct (Ascii.eqb_spec c sep) as [->|Hc].
  - destruct (split sep r) as [|h t] eqn:E; [now apply split_nonempty in E|].
    cbn [join]. cbn [join] in IH. now rewrite IH.
  - destruct (split sep r) as [|h t] eqn:E; [now apply split_nonempty in E|].
    destruct t as [|h' t']; cbn [join] in *; [now rewrite IH|].
    rewrite append_String. now rewrite IH.
Qed.

Lemma stripUsernamePrefix_first_slash (pre post : string) :
  noSlash pre -> stripUsernamePrefix (pre ++ "/" ++ post) = post.
Proof.
  intros Hpre. unfold stripUsernamePrefix.
  change ("/" ++ post) with (String "/" post).
  rewrite includes_append. simpl includes. rewrite orb_true_r.
  rewrite split_append, (split_no_separator _ _ Hpre). simpl.
  apply join_split.
Qed.

Lemma stripUsernamePrefix_no_slash (b : string) :
  noSlash b -> stripUsernamePrefix b = b.
Proof. intros H. unfold stripUsernamePrefix. now rewrite H. Qed.

(** *** [path.basename] *)

Lemma last_append (A : Type) (l1 l2 : list A) (d : A) :
  l2 <> [] -> last (l1 ++ l2)%list d = last l2 d.
Proof.
  intros H. induction l1 as [|x l1 IH]; [reflexivity|].
  simpl. rewrite IH. destruct (l1 ++ l2)%list eqn:E; [|reflexivity].
  apply app_eq_nil in E as [_ E]. contradiction.
Qed.

Lemma dropTrailingSlashes_append (a b : string) :
  dropTrailingSlashes (a ++ b) =
  if isEmpty (dropTrailingSlashes b) then dropTrailingSlashes a
  else a ++ dropTrailingSlashes b.
Proof.
  induction a as [|c a IH]; simpl.
  - destruct (dropTrailingSlashes b); reflexivity.
  - rewrite IH. destruct (isEmpty (dropTrailingSlashes b)) eqn:E; [reflexivity|].
    destruct (a ++ dropTrailingSlashes b) eqn:E'; [|now rewrite andb_false_r].
    destruct a; [|discriminate]. simpl in E'. rewrite E' in E. discriminate.
Qed.

Lemma dropTrailingSlashes_segment (name : string) :
  name <> EmptyString -> noSlash name -> dropTrailingSlashes name = name.
Proof.
  unfold noSlash. induction name as [|c r IH]; [congruence|]. intros _. simpl.
  destruct (Ascii.eqb c "/") eqn:Hc; [discriminate|]. simpl. intros Hr.
  destruct r as [|c' r']; [reflexivity|].
  rewrite IH by (discriminate || assumption). reflexivity.
Qed.

Lemma basename_finalComponent (path name : string) :
  finalComponent path name -> basename path = name.
Proof.
  intros (dir & slashes & -> & Hdir & Hne & Hns & Hsl).
  unfold basename.
  assert (E : dropTrailingSlashes (dir ++ name ++ slashes) = dir ++ name).
  { rewrite dropTrailingSlashes_append.
    rewrite (dropTrailingSlashes_append name slashes), Hsl. simpl.
    rewrite (dropTrailingSlashes_segment Hne Hns).
    destruct name; [congruence | reflexivity]. }
  rewrite E. unfold pop.
  destruct Hdir as [-> | (d & ->)].
  - simpl. now rewrite (split_no_separator _ _ Hns).
  - rewrite append_assoc. change ("/" ++ name) with (String "/" name).
    rewrite split_append, last_append by apply split_nonempty.
    now rewrite (split_no_separator _ _ Hns).
Qed.

(** *** The workspace path expression *)

Lemma stripPrefix_append (p s : string) : stripPrefix p (p ++ s) = Some s.
Proof.
  induction p as [|c p IH]; simpl; [now destruct s|].
  now rewrite Ascii.eqb_refl.
Qed.

Lemma stripPrefix_Some (p s r : string) : stripPrefix p s = Some r -> s = p ++ r.
Proof.
  revert s. induction p as [|c p IH]; intros s; simpl.
  - destruct s; now intros [= ->].
  - destruct s as [|c' s']; [discriminate|].
    destruct (Ascii.eqb_spec c c') as [->|]; [|discriminate].
    intros H. now rewrite (IH _ H).
Qed.

Lemma span_segment_append (w rest : string) :
  noSlash w -> (rest = EmptyString \/ exists rest', rest = String "/" rest') ->
  span_segment (w ++ rest) = (w, rest).
Proof.
  unfold noSlash. intros Hw Hrest.
  induction w as [|c w IH]; simpl in *.
  - destruct Hrest as [-> | (rest' & ->)]; reflexivity.
  - destruct (Ascii.eqb c "/"); [discriminate|]. simpl in Hw.
    now rewrite (IH Hw).
Qed.

Lemma span_segment_spec (s w rest : string) :
  span_segment s = (w, rest) ->
  s = w ++ rest /\ noSlash w /\
  (rest = EmptyString \/ exists rest', rest = String "/" rest').
Proof.
  unfold noSlash. revert w rest.
  induction s as [|c s IH]; intros w rest; simpl.
  - intros [= <- <-]. auto.
  - destruct (Ascii.eqb_spec c "/") as [->|Hc].
    + intros [= <- <-]. repeat split; eauto.
    + destruct (span_segment s) as [w' rest'] eqn:E. intros [= <- <-].
      destruct (IH _ _ eq_refl) as (-> & Hw & Hr).
      repeat split; [|assumption].
      simpl. apply Ascii.eqb_neq in Hc. now rewrite Hc.
Qed.

Lemma conductorMatch_here_complete (W P rest : string) :
  conductorPathAt ("/conductor/workspaces/" ++ W ++ "/" ++ P ++ rest)
    EmptyString W P rest ->
  conductorMatch_here ("/conductor/workspaces/" ++ W ++ "/" ++ P ++ rest) = Some (W, P).
Proof.
  intros (_ & HW & HWs & HP & HPs & Hrest).
  unfold conductorMatch_here. rewrite stripPrefix_append.
  rewrite (span_segment_append (w := W)); [| assumption | right; now eexists].
  destruct W as [|c W]; [congruence|]. simpl isEmpty. cbn iota.
  change ("/" ++ P ++ rest) with (String "/" (P ++ rest)). cbn iota.
  rewrite (span_segment_append HPs Hrest).
  destruct P; [congruence | reflexivity].
Qed.

Lemma conductorMatch_here_sound (s W P : string) :
  conductorMatch_here s = Some (W, P) ->
  exists rest, conductorPathAt s EmptyString W P rest.
Proof.
  unfold conductorMatch_here.
  destruct (stripPrefix _ s) as [r|] eqn:E; [|discriminate].
  apply stripPrefix_Some in E.
  destruct (span_segment r) as [w r1] eqn:E1.
  apply span_segment_spec in E1 as (-> & Hw & _).
  destruct (isEmpty w) eqn:Ew; [discriminate|].
  destruct r1 as [|c r2]; [discriminate|].
  destruct (Ascii.eqb_spec c "/") as [->|Hc].
  2:{ destruct c as [[] [] [] [] [] [] [] []]; try discriminate. congruence. }
  destruct (span_segment r2) as [p r3] eqn:E2.
  apply span_segment_spec in E2 as (-> & Hp & Hr3).
  destruct (isEmpty p) eqn:Ep; [discriminate|].
  intros [= <- <-]. exists r3. unfold conductorPathAt.
  repeat split; try assumption.
  - intros ->. discriminate.
  - intros ->. discriminate.
Qed.

Lemma conductorMatch_unfold (cwd : string) :
  conductorMatch cwd =
  match conductorMatch_here cwd with
  | Some m => Some m
  | None => match cwd with
            | EmptyString => None
            | String _ r => conductorMatch r
            end
  end.
Proof. destruct cwd; reflexivity. Qed.

Lemma conductorPathAt_shift (c : ascii) (cwd pre W P rest : string) :
  conductorPathAt cwd pre W P rest ->
  conductorPathAt (String c cwd) (String c pre) W P rest.
Proof.
  intros (-> & H). split; [reflexivity | exact H].
Qed.

(** The leftmost occurrence is the one the expression captures. *)
Lemma conductorMatch_leftmost (cwd pre W P rest : string) :
  conductorPathAt cwd pre W P rest ->
  (forall pre' W' P' rest', conductorPathAt cwd pre' W' P' rest' ->
     (String.length pre <= String.length pre')%nat) ->
  conductorMatch cwd = Some (W, P).
Proof.
  revert cwd. induction pre as [|c pre IH]; intros cwd Hat Hleft.
  - rewrite conductorMatch_unfold.
    destruct Hat as (E & Hat).
    change (cwd = "/conductor/workspaces/" ++ W ++ "/" ++ P ++ rest) in E. subst cwd.
    rewrite conductorMatch_here_complete; [reflexivity|].
    split; [reflexivity | exact Hat].
  - pose proof Hat as (E & Hrest).
    change (cwd = String c (pre ++ "/conductor/workspaces/" ++ W ++ "/" ++ P ++ rest)) in E.
    rewrite conductorMatch_unfold.
    destruct (conductorMatch_here cwd) as [[W' P']|] eqn:Ehere.
    + apply conductorMatch_here_sound in Ehere as (rest' & Hat').
      apply Hleft in Hat'. simpl in Hat'. lia.
    + subst cwd. apply IH.
      * split; [reflexivity | exact Hrest].
      * intros pre' W' P' rest' Hat'.
        apply (conductorPathAt_shift c), Hleft in Hat'. simpl in Hat'. lia.
Qed.

Lemma conductorMatch_sound (cwd W P : string) :
  conductorMatch cwd = Some (W, P) ->
  exists pre rest, conductorPathAt cwd pre W P rest.
Proof.
  induction cwd as [|c cwd IH]; rewrite conductorMatch_unfold.
  - simpl. discriminate.
  - destruct (conductorMatch_here (String c cwd)) as [m|] eqn:Ehere.
    + intros [= ->]. apply conductorMatch_here_sound in Ehere as (rest & H).
      now exists EmptyString, rest.
    + intros H. destruct (IH H) as (pre & rest & Hat).
      exists (String c pre), rest. now apply conductorPathAt_shift.
Qed.

Lemma conductorMatch_none (cwd : string) :
  (forall pre W P rest, ~ conductorPathAt cwd pre W P rest) ->
  conductorMatch cwd = None.
Proof.
  intros Hno. destruct (conductorMatch cwd) as [[W P]|] eqn:E; [|reflexivity].
  apply conductorMatch_sound in E as (pre & rest & Hat).
  now apply Hno in Hat.
Qed.

End StringFacts.

(** ** Facts about the sort of line 153 *)

Section SortFacts.

Lemma sort_insert_perm (A : Type) (cmp : A -> A -> number) (x : A) (l : list A) :
  Permutation (sort_insert cmp x l) (x :: l).
Proof.
  induction l as [|y l IH]; simpl; [reflexivity|].
  destruct (sortsAfter cmp x y); [|reflexivity].
  rewrite IH. apply perm_swap.
Qed.

Lemma sort_perm (A : Type) (cmp : A -> A -> number) (l : list A) :
  Permutation (sort cmp l) l.
Proof.
  induction l as [|x l IH]; simpl; [reflexivity|].
  rewrite sort_insert_perm. now constructor.
Qed.

Lemma sortsAfter_ports (a b : ProcessEntry) :
  sortsAfter comparePorts a b = true ->
  exists x y, port a = Int x /\ port b = Int y /\ (y < x)%Z.
Proof.
  unfold sortsAfter, comparePorts, sub.
  destruct (port a) as [|x], (port b) as [|y]; try discriminate.
  intros H. apply Z.ltb_lt in H. exists x, y. repeat split; lia.
Qed.

Lemma not_sortsAfter_ports (a b : ProcessEntry) (x y : Z) :
  port a = Int x -> port b = Int y ->
  sortsAfter comparePorts a b = false -> (x <= y)%Z.
Proof.
  unfold sortsAfter, comparePorts, sub. intros -> ->.
  intros H. apply Z.ltb_ge in H. lia.
Qed.

Lemma number_eqb_eq (a b : number) : number_eqb a b = true <-> a = b.
Proof.
  destruct a as [|x], b as [|y]; simpl; split; intros H;
    try congruence; try discriminate.
  - apply Z.eqb_eq in H. now subst.
  - injection H as ->. apply Z.eqb_refl.
Qed.

Lemma sort_insert_stable (p : number) (x : ProcessEntry) (l : list ProcessEntry) :
  filter (hasPort p) (sort_insert comparePorts x l) = filter (hasPort p) (x :: l).
Proof.
  induction l as [|y l IH]; [reflexivity|].
  cbn [sort_insert]. destruct (sortsAfter comparePorts x y) eqn:E; [|reflexivity].
  cbn [filter] in *. rewrite IH.
  apply sortsAfter_ports in E as (a & b & Ha & Hb & Hlt).
  unfold hasPort. rewrite Ha, Hb.
  destruct (number_eqb (Int a) p) eqn:E1, (number_eqb (Int b) p) eqn:E2; try reflexivity.
  apply number_eqb_eq in E1, E2. subst p. injection E2 as E2. lia.
Qed.

(** Stability: the entries of any one port keep their order. *)
Lemma sort_stable (p : number) (l : list ProcessEntry) :
  filter (hasPort p) (sort comparePorts l) = filter (hasPort p) l.
Proof.
  induction l as [|x l IH]; [reflexivity|].
  cbn [sort]. rewrite sort_insert_stable. cbn [filter]. now rewrite IH.
Qed.

Lemma port_le_trans (a b c : ProcessEntry) : port_le a b -> port_le b c -> port_le a c.
Proof.
  intros (x & y & Hx & Hy & Hxy) (y' & z & Hy' & Hz & Hyz).
  rewrite Hy in Hy'. injection Hy' as <-.
  exists x, z. repeat split; try assumption. lia.
Qed.

Lemma sort_insert_sorted (x : ProcessEntry) (l : list ProcessEntry) :
  isPort (port x) -> Forall (fun e => isPort (port e)) l ->
  StronglySorted port_le l ->
  StronglySorted port_le (sort_insert comparePorts x l).
Proof.
  intros (a & Ha & _) Hl Hs.
  induction Hs as [|y l Hs IH Hy]; cbn [sort_insert].
  - constructor; constructor.
  - inversion Hl as [|? ? (b & Hb & _) Hl']; subst.
    destruct (sortsAfter comparePorts x y) eqn:E.
    + constructor; [now apply IH|].
      apply (Permutation_Forall (Permutation_sym (sort_insert_perm comparePorts x l))).
      constructor; [|assumption].
      apply sortsAfter_ports in E as (a' & b' & Ha' & Hb' & Hlt).
      exists b', a'. repeat split; try assumption. lia.
    + assert (Hxy : port_le x y).
      { exists a, b. repeat split; try assumption.
        now apply (not_sortsAfter_ports x y). }
      constructor; [now constructor|].
      constructor; [assumption|].
      eapply Forall_impl; [|exact Hy].
      intros z Hz. now apply (port_le_trans Hxy).
Qed.

Lemma sort_sorted (l : list ProcessEntry) :
  Forall (fun e => isPort (port e)) l ->
  StronglySorted port_le (sort comparePorts l).
Proof.
  induction l as [|x l IH]; intros H; cbn [sort]; [constructor|].
  inversion H; subst.
  apply sort_insert_sorted; [assumption | | now apply IH].
  now apply (Permutation_Forall (Permutation_sym (sort_perm comparePorts l))).
Qed.

End SortFacts.

(** ** Facts about first occurrences *)

Section FirstOccurrences.

Lemma sameSocket_true (p q : number) (raw : RawSocket) :
  sameSocket p q raw = true <-> rawIdentity raw = (p, q).
Proof.
  unfold sameSocket, rawIdentity. rewrite andb_true_iff, !number_eqb_eq.
  split; [intros [-> ->]; reflexivity | intros [= -> ->]; auto].
Qed.

Lemma sameSocket_self (raw : RawSocket) :
  sameSocket (raw_pidNum raw) (raw_port raw) raw = true.
Proof. now apply sameSocket_true. Qed.

Lemma firstSockets_first (raws seen : list RawSocket) (raw : RawSocket) :
  In raw (firstSockets seen raws) ->
  existsb (sameSocket (raw_pidNum raw) (raw_port raw)) seen = false /\
  firstRaw (raw_pidNum raw) (raw_port raw) raws = Some raw.
Proof.
  unfold firstRaw. revert seen.
  induction raws as [|r0 rest IH]; intros seen; cbn [firstSockets find]; [contradiction|].
  destruct (existsb (sameSocket (raw_pidNum r0) (raw_port r0)) seen) eqn:E.
  - intros Hin. destruct (IH _ Hin) as [Hseen Hfind]. split; [assumption|].
    destruct (sameSocket (raw_pidNum raw) (raw_port raw) r0) eqn:E0; [|assumption].
    apply sameSocket_true in E0. unfold rawIdentity in E0. injection E0 as E1 E2.
    rewrite E1, E2, Hseen in E. discriminate.
  - intros [<- | Hin].
    + split; [assumption|]. now rewrite sameSocket_self.
    + destruct (IH _ Hin) as [Hseen Hfind].
      rewrite existsb_app in Hseen. apply orb_false_elim in Hseen as [Hseen H0].
      split; [assumption|]. simpl in H0. rewrite orb_false_r in H0.
      now rewrite H0.
Qed.

Lemma firstSockets_NoDup (raws seen : list RawSocket) :
  NoDup (map rawIdentity (firstSockets seen raws)).
Proof.
  revert seen. induction raws as [|r0 rest IH]; intros seen; cbn [firstSockets].
  - constructor.
  - destruct (existsb _ seen); [apply IH|].
    cbn [map]. constructor; [|apply IH].
    intros Hin. apply in_map_iff in Hin as (x & Hx & Hin).
    apply firstSockets_first in Hin as [Hseen _].
    rewrite existsb_app in Hseen. apply orb_false_elim in Hseen as [_ H0].
    simpl in H0. rewrite orb_false_r in H0.
    assert (H1 : sameSocket (raw_pidNum x) (raw_port x) r0 = true).
    { apply sameSocket_true. now rewrite <- Hx. }
    congruence.
Qed.

Lemma socketsOfLines_ports (lines : list string) :
  Forall (fun raw => isPort (raw_port raw)) (socketsOfLines lines).
Proof.
  induction lines as [|line rest IH]; simpl; [constructor|].
  destruct (parseLine line) as [raw|] eqn:E; [|assumption].
  constructor; [now apply (parseLine_port line) | assumption].
Qed.

Lemma firstSockets_incl (raws seen : list RawSocket) (raw : RawSocket) :
  In raw (firstSockets seen raws) -> In raw raws.
Proof.
  revert seen. induction raws as [|r0 rest IH]; intros seen; cbn [firstSockets]; [auto|].
  destruct (existsb _ seen).
  - intros H. right. now apply (IH seen).
  - intros [<- | H]; [now left | right; now apply (IH _ H)].
Qed.

Lemma EntryOf_identity (raw : RawSocket) (e : ProcessEntry) :
  EntryOf raw e -> identity e = rawIdentity raw.
Proof. intros (c & i & b & ->). reflexivity. Qed.

Lemma Forall2_EntryOf_identities
    (raws : list RawSocket) (entries : list ProcessEntry) :
  Forall2 EntryOf raws entries -> map identity entries = map rawIdentity raws.
Proof.
  induction 1 as [|raw e raws entries H _ IH]; simpl; [reflexivity|].
  now rewrite IH, (EntryOf_identity H).
Qed.

Lemma Forall2_EntryOf_In
    (raws : list RawSocket) (entries : list ProcessEntry) (e : ProcessEntry) :
  Forall2 EntryOf raws entries -> In e entries ->
  exists raw, In raw raws /\ EntryOf raw e.
Proof.
  induction 1 as [|raw e' raws entries H _ IH]; simpl; [contradiction|].
  intros [<- | Hin]; [eauto|].
  destruct (IH Hin) as (raw' & ? & ?). eauto.
Qed.

End FirstOccurrences.

(** ** Facts about the pipeline *)

Unset Implicit Arguments.

Section PipelineFacts.

Variable host : Host.

Lemma bind_normal {A B : Type} (m : M host A) (k : A -> M host B)
    {r r' : Realm host} {a : A} :
  m r = (Normal a, r') -> bind m k r = k a r'.
Proof. unfold bind. now intros ->. Qed.

Lemma bind_throw {A B : Type} (m : M host A) (k : A -> M host B)
    {r r' : Realm host} {e : Error} :
  m r = (Throw e, r') -> bind m k r = (Throw e, r').
Proof. unfold bind. now intros ->. Qed.

Lemma try_catch_normal {A : Type} (m : M host A) (h : Error -> M host A)
    {r r' : Realm host} {a : A} :
  m r = (Normal a, r') -> try_catch m h r = (Normal a, r').
Proof. unfold try_catch. now intros ->. Qed.

Lemma try_catch_throw {A : Type} (m : M host A) (h : Error -> M host A)
    {r r' : Realm host} {e : Error} :
  m r = (Throw e, r') -> try_catch m h r = h e r'.
Proof. unfold try_catch. now intros ->. Qed.

Lemma execAsync_run (cmd : string) (r : Realm host) :
  execAsync cmd r =
  (fst (exec host cmd (world r)),
   {| world := snd (exec host cmd (world r));
      conductorWorkspaces := conductorWorkspaces r |}).
Proof. unfold execAsync. now destruct (exec host cmd (world r)). Qed.

(** The two inner [try] blocks never throw and leave the tracker snapshot
    alone. *)
Lemma resolveCwd_total (pidNum : number) (r : Realm host) :
  exists cwd w,
    resolveCwd pidNum r = (Normal cwd, {| world := w; conductorWorkspaces := (conductorWorkspaces r) |}).
Proof.
  unfold resolveCwd, try_catch, bind, ret. rewrite execAsync_run.
  destruct r as [w0 cw]. cbn [world conductorWorkspaces].
  destruct (exec host (lsof_cwd_command pidNum) w0) as [[out|e] w1];
    cbn [fst snd]; [|eauto].
  match goal with |- context [if ?b then _ else _] => destruct b end; [|eauto].
  rewrite execAsync_run. cbn [world conductorWorkspaces].
  destruct (exec host (lsof_cwd_fallback_command pidNum) w1) as [[out2|e2] w2];
    cbn [fst snd]; eauto.
Qed.

Lemma resolveBranch_total (cwd : string) (r : Realm host) :
  exists branch w,
    resolveBranch cwd r = (Normal branch, {| world := w; conductorWorkspaces := (conductorWorkspaces r) |}).
Proof.
  unfold resolveBranch, try_catch, bind, ret. rewrite execAsync_run.
  destruct r as [w0 cw]. cbn [world conductorWorkspaces].
  destruct (exec host (git_branch_command cwd) w0) as [[out|e] w1];
    cbn [fst snd]; eauto.
Qed.

Lemma EntryOf_makeEntry (raw : RawSocket) (cwd : string) (info : ProjectInfo)
    (branch : string) :
  EntryOf raw (makeEntry raw cwd info branch).
Proof. now exists cwd, info, branch. Qed.

(** One iteration: a [continue], or one entry stored under a fresh key. *)
Lemma processLine_step (line : string) (processes : Map ProcessEntry) (r : Realm host) :
  match parseLine line with
  | None => processLine line processes r = (Normal processes, r)
  | Some raw =>
      let key := socketKey (raw_pidNum raw) (raw_port raw) in
      if Map_has key processes
      then processLine line processes r = (Normal processes, r)
      else exists e w,
          EntryOf raw e /\
          processLine line processes r =
          (Normal (Map_set key e processes), {| world := w; conductorWorkspaces := (conductorWorkspaces r) |})
  end.
Proof.
  unfold processLine.
  destruct (parseLine line) as [raw|]; [|reflexivity]. cbn zeta.
  destruct (Map_has _ processes); [reflexivity|].
  destruct (resolveCwd_total (raw_pidNum raw) r) as (cwd & w1 & E1).
  rewrite (bind_normal _ _ E1).
  destruct (truthy cwd).
  - unfold read_conductorWorkspaces at 1. unfold bind at 1.
    cbn [conductorWorkspaces].
    destruct (resolveBranch_total cwd ({| world := w1; conductorWorkspaces := (conductorWorkspaces r) |}))
      as (branch & w2 & E2).
    rewrite (bind_normal _ _ E2). unfold ret. cbn [conductorWorkspaces].
    eexists _, w2. split; [|reflexivity]. apply EntryOf_makeEntry.
  - unfold ret. eexists _, w1. split; [|reflexivity]. apply EntryOf_makeEntry.
Qed.

Lemma Map_has_cons {V : Type} (k k' : string) (v : V) (m : Map V) :
  Map_has k ((k', v) :: m) = String.eqb k' k || Map_has k m.
Proof. unfold Map_has. simpl. now destruct (String.eqb k' k). Qed.

Lemma Map_set_fresh {V : Type} (k : string) (v : V) (m : Map V) :
  Map_has k m = false -> Map_set k v m = (m ++ [(k, v)])%list.
Proof.
  induction m as [|[k' v'] m IH]; [reflexivity|].
  rewrite Map_has_cons. intros H. apply orb_false_elim in H as [H1 H2].
  simpl. now rewrite H1, (IH H2).
Qed.

(** Line 77 asks whether the pair was met before. *)
Lemma Map_has_seen {processes : Map ProcessEntry}
    {seen : list RawSocket} (p : number) {q : number} :
  Discovered processes seen ->
  Forall (fun raw => isPort (raw_port raw)) seen -> isPort q ->
  Map_has (socketKey p q) processes = existsb (sameSocket p q) seen.
Proof.
  intros HD Hseen Hq.
  induction HD as [|[k v] raw processes seen [Hk _] _ IH]; [reflexivity|].
  inversion Hseen as [|? ? Hraw Hseen']; subst.
  rewrite Map_has_cons. cbn [existsb]. rewrite (IH Hseen'). f_equal.
  cbn [fst] in Hk. subst k.
  destruct (String.eqb_spec (socketKey (raw_pidNum raw) (raw_port raw)) (socketKey p q))
    as [E|E].
  - apply socketKey_inj in E as [E1 E2]; try assumption.
    symmetry. apply sameSocket_true. unfold rawIdentity. now rewrite E1, E2.
  - destruct (sameSocket p q raw) eqn:E'; [|reflexivity].
    apply sameSocket_true in E'. unfold rawIdentity in E'. injection E' as E1 E2.
    now rewrite E1, E2 in E.
Qed.

Lemma forEachLine_spec (lines : list string) (processes : Map ProcessEntry)
    (seen : list RawSocket) (r : Realm host) :
  Discovered processes seen ->
  Forall (fun raw => isPort (raw_port raw)) seen ->
  exists processes' w,
    forEachLine lines processes r =
    (Normal processes', {| world := w; conductorWorkspaces := (conductorWorkspaces r) |}) /\
    Discovered processes'
      (seen ++ firstSockets seen (socketsOfLines lines))%list.
Proof.
  revert processes seen r.
  induction lines as [|line rest IH]; intros processes seen r HD Hseen.
  - exists processes, (world r). cbn. rewrite app_nil_r.
    destruct r; split; [reflexivity | assumption].
  - cbn [forEachLine socketsOfLines].
    pose proof (processLine_step line processes r) as Hstep.
    destruct (parseLine line) as [raw|] eqn:Eline.
    + cbn zeta in Hstep. cbn [firstSockets].
      rewrite (Map_has_seen (raw_pidNum raw) HD Hseen (parseLine_port line Eline)) in Hstep.
      destruct (existsb _ seen) eqn:Eseen.
      * rewrite (bind_normal _ _ Hstep). now apply IH.
      * destruct Hstep as (e & w & He & Hstep). rewrite (bind_normal _ _ Hstep).
        rewrite Map_set_fresh
          by now rewrite (Map_has_seen (raw_pidNum raw) HD Hseen (parseLine_port line Eline)).
        destruct (IH (processes ++ [(socketKey (raw_pidNum raw) (raw_port raw), e)])%list
                     (seen ++ [raw])%list ({| world := w; conductorWorkspaces := (conductorWorkspaces r) |}))
          as (processes' & w' & E & HD').
        -- apply Forall2_app; [assumption|]. constructor; [|constructor]. now split.
        -- apply Forall_app. split; [assumption|].
           constructor; [|constructor]. now apply (parseLine_port line).
        -- cbn [conductorWorkspaces] in *. exists processes', w'.
           split; [assumption|]. now rewrite <- app_assoc in HD'.
    + rewrite (bind_normal _ _ Hstep). now apply IH.
Qed.

Lemma Discovered_values (processes : Map ProcessEntry) (seen : list RawSocket) :
  Discovered processes seen -> Forall2 EntryOf seen (Map_values processes).
Proof.
  induction 1 as [|[k v] raw processes seen [_ H] _ IH]; cbn; constructor; assumption.
Qed.

(** The tracker bridge degrades silently: it always returns, [null] if need be. *)
Lemma getConductorWorkspaces_total (r : Realm host) :
  exists cw w,
    getConductorWorkspaces r =
    (Normal cw, {| world := w; conductorWorkspaces := (conductorWorkspaces r) |}).
Proof.
  unfold getConductorWorkspaces, try_catch, bind, fs_existsSync, ret.
  destruct r as [w0 cw0]. cbn [world conductorWorkspaces].
  destruct (existsSync host (CONDUCTOR_DB host) w0); cbn [negb]; [|eauto].
  rewrite execAsync_run. cbn [world conductorWorkspaces].
  destruct (exec host (sqlite_command host) w0) as [[out|e] w1]; cbn [fst snd]; [|eauto].
  destruct (negb (truthy (trim out))); [eauto|].
  destruct (JSON_parse host out); eauto.
Qed.

Lemma getConductorWorkspaces_absent (r : Realm host) :
  existsSync host (CONDUCTOR_DB host) (world r) = false ->
  getConductorWorkspaces r = (Normal None, r).
Proof.
  intros H. unfold getConductorWorkspaces, try_catch, bind, fs_existsSync, ret.
  rewrite H. reflexivity.
Qed.

(** What one enumeration cycle returns, by the outcome of the listing call. *)
Lemma getLocalhostProcesses_spec (r : Realm host) :
  exists cw w1,
    getConductorWorkspaces r =
      (Normal cw, {| world := w1; conductorWorkspaces := (conductorWorkspaces r) |}) /\
    match exec host lsof_listen_command w1 with
    | (Throw e, w2) =>
        getLocalhostProcesses r =
        (Normal [], {| world := (console_error host e w2); conductorWorkspaces := cw |})
    | (Normal stdout, w2) =>
        exists discovered w3,
          getLocalhostProcesses r =
          (Normal (sort comparePorts discovered), {| world := w3; conductorWorkspaces := cw |}) /\
          Forall2 EntryOf (firstSockets [] (rawSockets stdout)) discovered
    end.
Proof.
  destruct (getConductorWorkspaces_total r) as (cw & w1 & Ecw).
  exists cw, w1. split; [assumption|].
  unfold getLocalhostProcesses.
  destruct (exec host lsof_listen_command w1) as [[stdout|e] w2] eqn:Eexec.
  - destruct (@forEachLine_spec (filterBoolean (split newline (trim stdout)))
                (Map_empty ProcessEntry) [] ({| world := w2; conductorWorkspaces := cw |}))
      as (processes & w3 & Eloop & HD); [constructor | constructor |].
    cbn [conductorWorkspaces app] in *.
    exists (Map_values processes), w3. split.
    + apply try_catch_normal. rewrite (bind_normal _ _ Ecw).
      unfold write_conductorWorkspaces at 1. unfold bind at 1.
      cbn [world]. unfold bind at 1. rewrite execAsync_run.
      cbn [world conductorWorkspaces]. rewrite Eexec. cbn [fst snd].
      rewrite (bind_normal _ _ Eloop). reflexivity.
    + now apply Discovered_values.
  - erewrite try_catch_throw.
    2:{ rewrite (bind_normal _ _ Ecw).
        unfold write_conductorWorkspaces at 1. unfold bind at 1.
        cbn [world]. unfold bind at 1. rewrite execAsync_run.
        cbn [world conductorWorkspaces]. rewrite Eexec. reflexivity. }
    reflexivity.
Qed.

End PipelineFacts.

(** ** The claims of the specification *)

Section Claims.

Variable host : Host.


Lemma discovered_ports (stdout : string) (discovered : list ProcessEntry) :
  Forall2 EntryOf (firstSockets [] (rawSockets stdout)) discovered ->
  Forall (fun e => isPort (port e)) discovered.
Proof.
  intros HF. apply Forall_forall. intros e He.
  destruct (Forall2_EntryOf_In _ HF He) as (raw & Hraw & Hentry).
  apply firstSockets_incl in Hraw.
  pose proof (socketsOfLines_ports (filterBoolean (split newline (trim stdout)))) as Hp.
  rewrite Forall_forall in Hp. specialize (Hp raw Hraw).
  destruct Hentry as (c & i & b & ->). exact Hp.
Qed.

(** C2. For every input the list returned by [getLocalhostProcesses] is
    sorted non-decreasing by port, and it is a stable rearrangement of the
    discovery order (the order of first occurrences in the listing): the
    entries of any one port appear in their discovery order. *)
Theorem C2_sorted_by_port_stable (r : Realm host) :
  exists entries r',
    getLocalhostProcesses r = (Normal entries, r') /\
    StronglySorted port_le entries /\
    exists discovered,
      Permutation entries discovered /\
      (forall p, filter (hasPort p) entries = filter (hasPort p) discovered) /\
      forall cw r1 stdout w2,
        getConductorWorkspaces r = (Normal cw, r1) ->
        exec host lsof_listen_command (world r1) = (Normal stdout, w2) ->
        map identity discovered = map rawIdentity (firstSockets [] (rawSockets stdout)).
Proof.
  destruct (getLocalhostProcesses_spec host r) as (cw & w1 & Ecw & H).
  destruct (exec host lsof_listen_command w1) as [[stdout|err] w2] eqn:Eexec.
  - destruct H as (discovered & w3 & E & HF).
    eexists _, _. split; [exact E|]. split.
    + apply sort_sorted. exact (discovered_ports _ _ HF).
    + exists discovered. split; [apply sort_perm|]. split; [intros p; apply sort_stable|].
      intros cw' r1 stdout' w2' Ecw' Eexec'.
      rewrite Ecw in Ecw'. injection Ecw' as <- <-. cbn [world] in Eexec'.
      rewrite Eexec in Eexec'. injection Eexec' as <- <-.
      exact (Forall2_EntryOf_identities HF).
  - eexists _, _. split; [exact H|]. split; [constructor|].
    exists []. split; [constructor|]. split; [reflexivity|].
    intros cw' r1 stdout' w2' Ecw' Eexec'.
    rewrite Ecw in Ecw'. injection Ecw' as <- <-. cbn [world] in Eexec'.
    rewrite Eexec in Eexec'. discriminate.
Qed.

Lemma new_URL_pathname_ok (input pathname : string) (r : Realm host) :
  URL_pathname host input ("http://localhost:" ++ PORT_toString host) = Some pathname ->
  new_URL_pathname input r = (Normal pathname, r).
Proof. unfold new_URL_pathname. now intros ->. Qed.

Lemma server_api_processes (req : Request) (r r' : Realm host)
    (entries : list ProcessEntry) :
  method req = "GET" ->
  URL_pathname host (url req) ("http://localhost:" ++ PORT_toString host)
    = Some "/api/processes" ->
  getLocalhostProcesses r = (Normal entries, r') ->
  server req r =
  (Normal {| status := 200;
             headers := (cors_headers ++ [("Content-Type", "application/json")])%list;
             body := Json (JArr (map json_of_entry entries)) |}, r').
Proof.
  intros Hm Hu He. unfold server.
  rewrite (bind_normal host _ _ (new_URL_pathname_ok _ _ r Hu)), Hm.
  cbn [String.eqb Ascii.eqb Bool.eqb andb].
  now rewrite (bind_normal host _ _ He).
Qed.

(** C3. Every [GET /api/processes] is answered with status 200 and a JSON
    array; [getLocalhostProcesses] returns normally, and when the socket
    listing call itself throws the array is empty. *)
Theorem C3_api_processes_always_200 (req : Request) (r : Realm host) :
  method req = "GET" ->
  URL_pathname host (url req) ("http://localhost:" ++ PORT_toString host)
    = Some "/api/processes" ->
  exists entries r',
    getLocalhostProcesses r = (Normal entries, r') /\
    server req r =
    (Normal {| status := 200;
               headers := (cors_headers ++ [("Content-Type", "application/json")])%list;
               body := Json (JArr (map json_of_entry entries)) |}, r') /\
    forall cw r1 err w2,
      getConductorWorkspaces r = (Normal cw, r1) ->
      exec host lsof_listen_command (world r1) = (Throw err, w2) ->
      entries = [].
Proof.
  intros Hm Hu.
  destruct (getLocalhostProcesses_spec host r) as (cw & w1 & Ecw & H).
  destruct (exec host lsof_listen_command w1) as [[stdout|err] w2] eqn:Eexec.
  - destruct H as (discovered & w3 & E & _).
    eexists _, _. split; [exact E|]. split; [now apply server_api_processes|].
    intros cw' r1 err w2' Ecw' Eexec'.
    rewrite Ecw in Ecw'. injection Ecw' as <- <-. cbn [world] in Eexec'.
    rewrite Eexec in Eexec'. discriminate.
  - eexists _, _. split; [exact H|]. split; [now apply server_api_processes|].
    reflexivity.
Qed.

(** C4. An entry is built with ["Unknown"] for an empty project name and
    ["-"] for an empty workspace name or an empty branch, and no entry of the
    returned list has an empty string in one of these three fields. *)
Theorem C4_default_sentinels :
  (forall raw dir info b,
     (projectName info = EmptyString ->
      project (makeEntry raw dir info b) = "Unknown") /\
     (workspaceName info = EmptyString ->
      workspace (makeEntry raw dir info b) = "-") /\
     (b = EmptyString -> branch (makeEntry raw dir info b) = "-")) /\
  forall r : Realm host,
    exists entries r',
      getLocalhostProcesses r = (Normal entries, r') /\
      Forall (fun e => project e <> EmptyString /\
                       workspace e <> EmptyString /\
                       branch e <> EmptyString) entries.
Proof.
  split.
  - intros raw dir info b. cbn [makeEntry project workspace branch].
    repeat split; intros ->; reflexivity.
  - intros r.
    destruct (getLocalhostProcesses_spec host r) as (cw & w1 & Ecw & H).
    destruct (exec host lsof_listen_command w1) as [[stdout|err] w2] eqn:Eexec.
    + destruct H as (discovered & w3 & E & HF).
      eexists _, _. split; [exact E|].
      apply (Permutation_Forall (Permutation_sym (sort_perm comparePorts discovered))).
      apply Forall_forall. intros e He.
      destruct (Forall2_EntryOf_In _ HF He) as (raw & _ & (c & i & b & ->)).
      cbn [makeEntry project workspace branch].
      repeat split; apply or_else_nonempty; discriminate.
    + eexists _, _. split; [exact H | constructor].
Qed.

(** C5 (as amended). The namespace segment is the literal [conductor]:
    when the working directory holds [/conductor/workspaces/W/P], [W] and [P]
    whole non-empty segments, the leftmost such occurrence sets the workspace
    to [W] and the project to [P], whatever follows; when it holds no such
    occurrence the workspace stays empty and the project is
    [path.basename] of the directory, its final path component. *)
Theorem C5_conductor_workspace_path (cw : option (Map WsInfo)) (dir : string) :
  (forall pre W P rest,
     conductorPathAt dir pre W P rest ->
     (forall pre' W' P' rest', conductorPathAt dir pre' W' P' rest' ->
        (String.length pre <= String.length pre')%nat) ->
     workspaceName (resolveProject cw dir) = W /\
     projectName (resolveProject cw dir) = P) /\
  ((forall pre W P rest, ~ conductorPathAt dir pre W P rest) ->
   workspaceName (resolveProject cw dir) = EmptyString /\
   projectName (resolveProject cw dir) = basename dir /\
   forall name, finalComponent dir name -> projectName (resolveProject cw dir) = name).
Proof.
  split.
  - intros pre W P rest Hat Hleft. unfold resolveProject.
    rewrite (conductorMatch_leftmost Hat Hleft).
    destruct cw as [lookup|]; [destruct (Map_get P lookup)|]; auto.
  - intros Hno. unfold resolveProject. rewrite (conductorMatch_none Hno).
    cbn [workspaceName projectName]. repeat split.
    intros name Hname. now apply basename_finalComponent.
Qed.

(** C6. When the git call prints a branch, the branch kept at lines 129-133
    is the printed name, trimmed, with everything up to its first ['/']
    removed; a name without ['/'] is kept unchanged; and a non-empty kept
    branch is the [branch] field of the entry as it is. *)
Theorem C6_branch_prefix_stripped (dir out : string) (r : Realm host) (w : World host) :
  exec host (git_branch_command dir) (world r) = (Normal out, w) ->
  exists stored,
    resolveBranch dir r =
      (Normal stored, {| world := w; conductorWorkspaces := conductorWorkspaces r |}) /\
    (forall pre post,
       trim out = pre ++ "/" ++ post -> noSlash pre -> stored = post) /\
    (noSlash (trim out) -> stored = trim out) /\
    (stored <> EmptyString ->
     forall raw info, branch (makeEntry raw dir info stored) = stored).
Proof.
  intros E. exists (stripUsernamePrefix (trim out)). repeat split.
  - unfold resolveBranch, try_catch, bind, ret. rewrite execAsync_run, E. reflexivity.
  - intros pre post -> Hpre. now apply stripUsernamePrefix_first_slash.
  - apply stripUsernamePrefix_no_slash.
  - intros Hne raw info. cbn [makeEntry branch]. now apply or_else_truthy.
Qed.

Lemma killProcess_run (pid : number) (r : Realm host) :
  killProcess pid r =
  match exec host (kill_command pid) (world r) with
  | (Normal _, w) =>
      (Normal {| success := true; error := None |},
       {| world := w; conductorWorkspaces := conductorWorkspaces r |})
  | (Throw e, w) =>
      (Normal {| success := false; error := Some (message e) |},
       {| world := w; conductorWorkspaces := conductorWorkspaces r |})
  end.
Proof.
  unfold killProcess, try_catch, bind, ret. rewrite execAsync_run.
  destruct (exec host (kill_command pid) (world r)) as [[out|e] w]; reflexivity.
Qed.

Lemma server_api_kill (req : Request) (pathname : string) (r r' : Realm host)
    (result : KillResult) :
  method req = "POST" ->
  URL_pathname host (url req) ("http://localhost:" ++ PORT_toString host)
    = Some pathname ->
  startsWith "/api/kill/" pathname = true ->
  killProcess (parseInt (pop (split "/" pathname))) r = (Normal result, r') ->
  server req r =
  (Normal {| status := 200;
             headers := (cors_headers ++ [("Content-Type", "application/json")])%list;
             body := Json (json_of_result result) |}, r').
Proof.
  intros Hm Hu Hs Hk. unfold server.
  rewrite (bind_normal host _ _ (new_URL_pathname_ok _ _ r Hu)), Hm, Hs.
  change (String.eqb "POST" "OPTIONS") with false.
  change (String.eqb "POST" "GET") with false.
  change (String.eqb "POST" "POST") with true.
  rewrite andb_false_r. cbn [andb].
  now rewrite (bind_normal host _ _ Hk).
Qed.


(** C9 (as amended). The listening port is the value of [CONDUCTOR_PORT] if
    that variable is set to a non-empty string, else the value of [PORT] if
    set to a non-empty string, else 3847; this is the port of the
    specification whenever no variable is set to the empty string. *)
Theorem C9_port_selection :
  (forall v, process_env host "CONDUCTOR_PORT" = Some v -> v <> EmptyString ->
     PORT host = PortString v) /\
  (process_env host "CONDUCTOR_PORT" = None \/
   process_env host "CONDUCTOR_PORT" = Some EmptyString ->
   forall v, process_env host "PORT" = Some v -> v <> EmptyString ->
     PORT host = PortString v) /\
  (process_env host "CONDUCTOR_PORT" = None \/
   process_env host "CONDUCTOR_PORT" = Some EmptyString ->
   process_env host "PORT" = None \/ process_env host "PORT" = Some EmptyString ->
   PORT host = PortNumber 3847) /\
  (process_env host "CONDUCTOR_PORT" <> Some EmptyString ->
   process_env host "PORT" <> Some EmptyString ->
   PORT host = spec_PORT (process_env host)).
Proof.
  unfold PORT, spec_PORT, env_truthy. repeat split.
  - intros v -> Hv. destruct v; [congruence | reflexivity].
  - intros [-> | ->] v -> Hv; (destruct v; [congruence | reflexivity]).
  - intros [-> | ->] [-> | ->]; reflexivity.
  - destruct (process_env host "CONDUCTOR_PORT") as [[|c s]|];
      destruct (process_env host "PORT") as [[|c' s']|]; intros H1 H2;
      try reflexivity; congruence.
Qed.

(** C10 (as amended). For every [POST /api/kill/{s}] whose final segment
    [s] does not start with a decimal integer, so that [parseInt] gives
    [NaN], the command run is [kill -9 NaN]; when that command fails the
    answer is status 200 with [{success: false, error: message}], where the
    message is the one of the rejection, not empty as long as the rejections
    of [exec] carry a message. *)
Theorem C10_kill_non_numeric_segment (req : Request) (pathname : string)
    (r : Realm host) (e : Error) (w : World host) :
  (forall cmd w0 e0 w', exec host cmd w0 = (Throw e0, w') -> message e0 <> EmptyString) ->
  method req = "POST" ->
  URL_pathname host (url req) ("http://localhost:" ++ PORT_toString host)
    = Some pathname ->
  startsWith "/api/kill/" pathname = true ->
  parseInt (pop (split "/" pathname)) = NaN ->
  exec host "kill -9 NaN" (world r) = (Throw e, w) ->
  server req r =
  (Normal {| status := 200;
             headers := (cors_headers ++ [("Content-Type", "application/json")])%list;
             body := Json (JObj [("success", JBool false); ("error", JStr (message e))]) |},
   {| world := w; conductorWorkspaces := conductorWorkspaces r |}) /\
  message e <> EmptyString.
Proof.
  intros Hmsg Hm Hu Hs Hp E. split; [|exact (Hmsg _ _ _ _ E)].
  apply (server_api_kill req pathname r _
           {| success := false; error := Some (message e) |}); try assumption.
  rewrite Hp, killProcess_run. change (kill_command NaN) with "kill -9 NaN".
  rewrite E. reflexivity.
Qed.

End Claims.

(** ** The model at work on the demonstration machines *)

Example split_ws_listing_line :
  split_ws "node  4242 me 23u IPv4 0xabc 0t0 TCP 127.0.0.1:3000 (LISTEN)"
  = ["node"; "4242"; "me"; "23u"; "IPv4"; "0xabc"; "0t0"; "TCP"; "127.0.0.1:3000"; "(LISTEN)"].
Proof. reflexivity. Qed.

Example split_ws_edges :
  split_ws " a" = [EmptyString; "a"] /\ split_ws "a " = ["a"; EmptyString] /\
  split_ws " " = [EmptyString; EmptyString].
Proof. repeat split. Qed.

Example parseInt_examples :
  parseInt "4242" = Int 4242 /\ parseInt "12abc" = Int 12 /\ parseInt "abc" = NaN /\
  parseInt EmptyString = NaN /\ parseInt "-7" = Int (-7).
Proof. repeat split. Qed.

Example basename_examples :
  basename "/Users/x/app" = "app" /\ basename "/Users/x/app/" = "app" /\
  basename "/" = EmptyString /\ basename "app" = "app".
Proof. repeat split. Qed.

Example toString_examples :
  toString (Int 3000) = "3000" /\ toString (Int 0) = "0" /\
  toString (Int (-5)) = "-5" /\ socketKey (Int 100) (Int 3000) = "100-3000".
Proof. repeat split. Qed.

(** The examples of the specification. *)
Example duplicate_descriptor_collapses :
  map identity
    (sort comparePorts
       (map (fun raw => makeEntry raw EmptyString noProject EmptyString)
          (firstSockets []
             [ {| raw_command := "node"; raw_pidNum := Int 100; raw_port := Int 3000 |};
               {| raw_command := "node"; raw_pidNum := Int 100; raw_port := Int 3000 |} ])))
  = [(Int 100, Int 3000)].
Proof. reflexivity. Qed.

Example conductor_directory :
  conductorMatch "/Users/x/conductor/workspaces/ws-1/myapp/src" = Some ("ws-1", "myapp").
Proof. reflexivity. Qed.

Example branch_examples :
  stripUsernamePrefix "alice/feature-x" = "feature-x" /\
  stripUsernamePrefix "alice/feat/sub" = "feat/sub" /\
  stripUsernamePrefix "main" = "main".
Proof. repeat split. Qed.

Example demo_cycle :
  map (fun e => (pid e, port e, command e, project e, workspace e, branch e))
      (match fst (getLocalhostProcesses (Demo.start Demo.host 0%nat)) with
       | Normal entries => entries
       | Throw _ => []
       end)
  = [ (Int 100, Int 3000, "node", "myapp", "ws-1", "feat/sub");
      (Int 300, Int 3000, "ruby", "Unknown", "-", "-");
      (Int 200, Int 8080, "node", "blog", "-", "main") ].
Proof. vm_compute. reflexivity. Qed.

Lemma demo_messages (vars : list (string * string)) (tracked : bool)
    (table : list (string * Completion string)) :
  forallb Demo.carries_message (map snd table) = true ->
  forall cmd w e w',
    exec (Demo.machine vars tracked table) cmd w = (Throw e, w') ->
    message e <> EmptyString.
Proof.
  intros Hall cmd w e w'. cbn [exec Demo.machine]. unfold Demo.run.
  destruct (Map_get cmd table) as [c|] eqn:E; [|discriminate].
  intros [= -> _].
  induction table as [|[k v] table IH]; [discriminate|].
  cbn in Hall. apply andb_prop in Hall as [Hv Hall].
  cbn in E. destruct (String.eqb k cmd).
  - injection E as ->. now apply truthy_true.
  - now apply IH.
Qed.

(** *** C2 *)

Lemma C2_witness :
  exists entries discovered,
    StronglySorted port_le entries /\
    Permutation entries discovered /\
    map identity discovered = [(Int 200, Int 8080); (Int 100, Int 3000); (Int 300, Int 3000)].
Proof.
  destruct (C2_sorted_by_port_stable Demo.host (Demo.start Demo.host 0%nat))
    as (entries & r' & _ & Hsorted & discovered & Hperm & _ & H).
  exists entries, discovered. split; [exact Hsorted|]. split; [exact Hperm|].
  erewrite H; [| reflexivity | reflexivity]. reflexivity.
Defined.

(** *** C3 *)

Lemma C3_witness :
  fst (server (Demo.get "/api/processes") (Demo.start Demo.broken 0%nat))
  = Normal {| status := 200;
              headers := (cors_headers ++ [("Content-Type", "application/json")])%list;
              body := Json (JArr []) |}.
Proof.
  destruct (C3_api_processes_always_200 Demo.broken (Demo.get "/api/processes")
              (Demo.start Demo.broken 0%nat) eq_refl eq_refl)
    as (entries & r' & _ & E & H).
  rewrite E. rewrite (H None (Demo.start Demo.broken 0%nat) _ 1%nat eq_refl eq_refl).
  reflexivity.
Defined.

(** *** C4 *)

Lemma C4_witness :
  project (makeEntry {| raw_command := "ruby"; raw_pidNum := Int 300; raw_port := Int 3000 |}
             EmptyString noProject EmptyString) = "Unknown".
Proof.
  apply (proj1 (C4_default_sentinels Demo.host)). reflexivity.
Defined.

(** *** C5 *)

(** The claim as worded, with any namespace segment, fails: under [dev]
    instead of [conductor] the path has the shape of the specification, yet
    no workspace is resolved and the project is the last component. *)
Lemma C5_counterexample :
  specNestedPath "/Users/x/dev/workspaces/ws-1/myapp/src" "ws-1" "myapp" /\
  workspaceName (resolveProject None "/Users/x/dev/workspaces/ws-1/myapp/src") = EmptyString /\
  projectName (resolveProject None "/Users/x/dev/workspaces/ws-1/myapp/src") = "src" /\
  ~ (forall cw dir W P, specNestedPath dir W P ->
       workspaceName (resolveProject cw dir) = W /\ projectName (resolveProject cw dir) = P).
Proof.
  assert (Hspec : specNestedPath "/Users/x/dev/workspaces/ws-1/myapp/src" "ws-1" "myapp").
  { exists "/Users/x", "dev", "/src".
    repeat split; try discriminate; try reflexivity. right. now eexists. }
  repeat split; try assumption.
  intros H. destruct (H None _ _ _ Hspec) as [Hw _]. discriminate Hw.
Qed.

Lemma C5_witness :
  workspaceName (resolveProject None "/conductor/workspaces/ws-1/myapp/src") = "ws-1" /\
  projectName (resolveProject None "/conductor/workspaces/ws-1/myapp/src") = "myapp".
Proof.
  apply (proj1 (C5_conductor_workspace_path None "/conductor/workspaces/ws-1/myapp/src")
           EmptyString "ws-1" "myapp" "/src").
  - repeat split; try discriminate; try reflexivity. right. now eexists.
  - intros pre' W' P' rest' _. simpl. lia.
Defined.

(** *** C6 *)

Lemma C6_witness :
  exists stored,
    resolveBranch "/Users/x/conductor/workspaces/ws-1/myapp/src" (Demo.start Demo.host 0%nat)
    = (Normal stored, Demo.start Demo.host 1%nat) /\
    stored = "feat/sub".
Proof.
  destruct (C6_branch_prefix_stripped Demo.host
              "/Users/x/conductor/workspaces/ws-1/myapp/src"
              ("alice/feat/sub" ++ String newline EmptyString)
              (Demo.start Demo.host 0%nat) 1%nat eq_refl)
    as (stored & E & Hslash & _ & _).
  exists stored. split; [exact E|].
  apply (Hslash "alice" "feat/sub"); reflexivity.
Defined.

(** *** C8 *)


(** *** C9 *)

(** The claim as worded fails when the primary variable is set to the empty
    string: the secondary variable is used. *)
Lemma C9_counterexample :
  process_env Demo.empty_primary "CONDUCTOR_PORT" = Some EmptyString /\
  PORT Demo.empty_primary = PortString "8080" /\
  spec_PORT (process_env Demo.empty_primary) = PortString EmptyString /\
  PORT Demo.empty_primary <> spec_PORT (process_env Demo.empty_primary).
Proof. repeat split. discriminate. Qed.

Lemma C9_witness : PORT Demo.primary_4000 = PortString "4000".
Proof.
  apply (proj1 (C9_port_selection Demo.primary_4000)); [reflexivity | discriminate].
Defined.

(** *** C10 *)

(** The claim as worded fails for a segment that is not numeric but starts
    with digits: [12abc] parses to 12, and where process 12 can be signalled
    the answer is [{success: true}]. *)
Lemma C10_counterexample :
  allDigits "12abc" = false /\
  parseInt (pop (split "/" "/api/kill/12abc")) = Int 12 /\
  fst (server (Demo.post "/api/kill/12abc") (Demo.start Demo.host 0%nat))
  = Normal {| status := 200;
              headers := (cors_headers ++ [("Content-Type", "application/json")])%list;
              body := Json (JObj [("success", JBool true)]) |}.
Proof. repeat split. Qed.

Lemma C10_witness :
  fst (server (Demo.post "/api/kill/abc") (Demo.start Demo.host 0%nat))
  = Normal {| status := 200;
              headers := (cors_headers ++ [("Content-Type", "application/json")])%list;
              body := Json (JObj [ ("success", JBool false);
                                   ("error", JStr ("Command failed: kill -9 NaN"
                                      ++ String newline
                                           "/bin/sh: kill: NaN: arguments must be process or job IDs")) ]) |}.
Proof.
  destruct (C10_kill_non_numeric_segment Demo.host (Demo.post "/api/kill/abc")
              "/api/kill/abc" (Demo.start Demo.host 0%nat) _ 1%nat
              (demo_messages _ _ (Demo.shell Demo.database) eq_refl)
              eq_refl eq_refl eq_refl eq_refl eq_refl)
    as [E _].
  rewrite E. reflexivity.
Defined.

(** ** Further facts about the built-ins *)

Section MoreStringFacts.

(** *** [parseInt] reads back what [toString] prints *)

Lemma digitsValue_uint_acc (d : Decimal.uint) (acc : positive) :
  digitsValue (Z.pos acc) (NilEmpty.string_of_uint d) = Z.pos (Pos.of_uint_acc d acc).
Proof.
  revert acc. induction d; intros acc; cbn [NilEmpty.string_of_uint Pos.of_uint_acc];
    try reflexivity;
    (rewrite <- IHd; cbn [digitsValue];
     match goal with |- context [isDigit ?c] => change (isDigit c) with true end;
     cbn iota; f_equal; unfold digitValue; simpl Z.of_nat; lia).
Qed.

Lemma digitsValue_uint (d : Decimal.uint) :
  digitsValue 0 (NilEmpty.string_of_uint d) = Z.of_N (Pos.of_uint d).
Proof.
  induction d; cbn [NilEmpty.string_of_uint Pos.of_uint]; try reflexivity;
    cbn [digitsValue];
    match goal with |- context [isDigit ?c] => change (isDigit c) with true end;
    cbn iota; try exact IHd;
    (cbn [Z.of_N]; rewrite <- digitsValue_uint_acc; reflexivity).
Qed.

Lemma uint_starts_with_digit (d : Decimal.uint) :
  d <> Decimal.Nil ->
  exists c r, NilEmpty.string_of_uint d = String c r /\ isDigit c = true.
Proof.
  destruct d; [congruence | ..]; intros _; eexists _, _; split; reflexivity.
Qed.

Lemma toString_positive (p : positive) :
  toString (Int (Z.pos p)) = NilEmpty.string_of_uint (Pos.to_uint p).
Proof.
  cbn. unfold NilZero.string_of_uint.
  destruct (Pos.to_uint p) eqn:E; try reflexivity.
  now apply Unsigned.to_uint_nonnil in E.
Qed.

Lemma toString_negative (p : positive) :
  toString (Int (Z.neg p)) = String "-" (NilEmpty.string_of_uint (Pos.to_uint p)).
Proof.
  cbn. unfold NilZero.string_of_uint.
  destruct (Pos.to_uint p) eqn:E; try reflexivity.
  now apply Unsigned.to_uint_nonnil in E.
Qed.

Lemma parseInt_toString_Int (z : Z) : parseInt (toString (Int z)) = Int z.
Proof.
  destruct z as [|p|p].
  - reflexivity.
  - rewrite toString_positive.
    destruct (uint_starts_with_digit _ (Unsigned.to_uint_nonnil p)) as (c & r & E & Hc).
    rewrite E, (parseInt_digit_start _ r Hc), <- E, digitsValue_uint, Unsigned.of_to.
    reflexivity.
  - rewrite toString_negative.
    destruct (uint_starts_with_digit _ (Unsigned.to_uint_nonnil p)) as (c & r & E & Hc).
    unfold parseInt. cbn [trimStart]. change (isWhiteSpace "-") with false. cbn iota.
    rewrite E. cbn [startsWithDigit]. rewrite Hc, <- E, digitsValue_uint, Unsigned.of_to.
    reflexivity.
Qed.

Lemma parseInt_toString (n : number) : parseInt (toString n) = n.
Proof. destruct n; [reflexivity | apply parseInt_toString_Int]. Qed.

Lemma uint_digits_only (c : ascii) (d : Decimal.uint) :
  isDigit c = false -> includes c (NilEmpty.string_of_uint d) = false.
Proof.
  intros Hc. induction d; cbn [NilEmpty.string_of_uint includes]; try reflexivity;
    rewrite IHd, orb_false_r; apply Ascii.eqb_neq; intros <-; discriminate Hc.
Qed.


End MoreStringFacts.

(** ** Further facts about the listing parser *)

Section ParserFacts.

Lemma trimStart_idempotent (s : string) : trimStart (trimStart s) = trimStart s.
Proof.
  induction s as [|c r IH]; [reflexivity|]. cbn [trimStart].
  destruct (isWhiteSpace c) eqn:E; [exact IH|]. cbn [trimStart]. now rewrite E.
Qed.

Lemma trimEnd_idempotent (s : string) : trimEnd (trimEnd s) = trimEnd s.
Proof.
  induction s as [|c r IH]; [reflexivity|]. cbn [trimEnd].
  destruct (isWhiteSpace c && isEmpty (trimEnd r)) eqn:E; [reflexivity|].
  cbn [trimEnd]. now rewrite IH, E.
Qed.

Lemma trimStart_trimEnd (s : string) :
  trimStart s = s -> trimStart (trimEnd s) = trimEnd s.
Proof.
  destruct s as [|c r]; [reflexivity|]. cbn [trimStart trimEnd].
  destruct (isWhiteSpace c) eqn:E.
  - intros H. exfalso.
    assert (Hlen : forall t, (String.length (trimStart t) <= String.length t)%nat).
    { induction t as [|x t IHt]; cbn [trimStart]; [lia|].
      destruct (isWhiteSpace x); cbn [String.length]; lia. }
    specialize (Hlen r). rewrite H in Hlen. cbn [String.length] in Hlen. lia.
  - intros _. cbn [andb trimStart]. now rewrite E.
Qed.

(** [trim] leaves nothing to trim. *)
Lemma trim_idempotent (s : string) : trim (trim s) = trim s.
Proof.
  unfold trim.
  rewrite (trimStart_trimEnd (trimStart s) (trimStart_idempotent s)).
  apply trimEnd_idempotent.
Qed.

Lemma split_ws_field (f : string) : noWhiteSpace f = true -> split_ws f = [f].
Proof.
  induction f as [|c r IH]; [reflexivity|]. cbn [noWhiteSpace split_ws].
  intros H. apply andb_prop in H as [Hc Hr]. apply negb_true_iff in Hc.
  now rewrite Hc, (IH Hr).
Qed.

Lemma split_ws_next_field (f : string) (c : ascii) (r : string) :
  noWhiteSpace f = true -> isWhiteSpace c = false ->
  split_ws (f ++ String " " (String c r)) = f :: split_ws (String c r).
Proof.
  intros Hf Hc. induction f as [|a f IH].
  - cbn [append split_ws]. change (isWhiteSpace " ") with true. cbn iota.
    now rewrite Hc.
  - cbn [noWhiteSpace] in Hf. apply andb_prop in Hf as [Ha Hf].
    apply negb_true_iff in Ha.
    change (String a f ++ String " " (String c r))
      with (String a (f ++ String " " (String c r))).
    cbn [split_ws]. rewrite Ha. cbn iota. now rewrite (IH Hf).
Qed.

(** Splitting at white space undoes joining fields with one space. *)
Lemma split_ws_join (fields : list string) :
  fields <> [] -> forallb isField fields = true ->
  split_ws (join " " fields) = fields.
Proof.
  induction fields as [|x rest IH]; [congruence|]. intros _ H.
  cbn [forallb] in H. apply andb_prop in H as [Hx Hrest].
  unfold isField in Hx. apply andb_prop in Hx as [_ Hx].
  destruct rest as [|y rest']; [now apply split_ws_field|].
  assert (Hy : exists c r, join " " (y :: rest') = String c r /\ isWhiteSpace c = false).
  { cbn [forallb] in Hrest. apply andb_prop in Hrest as [Hy _].
    unfold isField in Hy. apply andb_prop in Hy as [Hne Hy].
    destruct y as [|c r]; [discriminate|].
    cbn [noWhiteSpace] in Hy. apply andb_prop in Hy as [Hc _].
    apply negb_true_iff in Hc.
    destruct rest'; cbn [join]; eexists _, _; (split; [reflexivity | exact Hc]). }
  destruct Hy as (c & r & Ey & Hc).
  change (join " " (x :: y :: rest')) with (x ++ " " ++ join " " (y :: rest')).
  rewrite <- (IH ltac:(discriminate) Hrest) at 2.
  rewrite Ey. apply split_ws_next_field; assumption.
Qed.

Lemma allDigits_colon (a b : string) : allDigits (a ++ String ":" b) = false.
Proof.
  induction a as [|c a IH]; [reflexivity|].
  change (String c a ++ String ":" b) with (String c (a ++ String ":" b)).
  cbn [allDigits]. rewrite IH. apply andb_false_r.
Qed.

(** The port is what follows the last colon of the address, however many
    colons the address holds. *)
Lemma portMatch_last_colon (addr digits : string) :
  digits <> EmptyString -> allDigits digits = true ->
  portMatch (addr ++ String ":" digits) = Some digits.
Proof.
  intros Hne Hd. induction addr as [|c addr IH].
  - cbn [append portMatch]. rewrite Hd, (proj2 (truthy_true digits) Hne). reflexivity.
  - change (String c addr ++ String ":" digits)
      with (String c (addr ++ String ":" digits)).
    cbn [portMatch]. rewrite allDigits_colon, andb_false_r. exact IH.
Qed.

Lemma portMatch_suffix (name digits : string) :
  portMatch name = Some digits -> exists addr, name = addr ++ String ":" digits.
Proof.
  induction name as [|c r IH]; cbn [portMatch]; [discriminate|].
  destruct (Ascii.eqb c ":" && truthy r && allDigits r) eqn:E.
  - intros [= <-]. apply andb_prop in E as [E _]. apply andb_prop in E as [E _].
    apply Ascii.eqb_eq in E. subst c. now exists EmptyString.
  - intros H. destruct (IH H) as (addr & ->). now exists (String c addr).
Qed.

Lemma uint_allDigits (d : Decimal.uint) : allDigits (NilEmpty.string_of_uint d) = true.
Proof. induction d; cbn [NilEmpty.string_of_uint allDigits]; auto. Qed.

Lemma toString_port_digits (z : Z) :
  (0 <= z)%Z ->
  toString (Int z) <> EmptyString /\ allDigits (toString (Int z)) = true.
Proof.
  intros Hz. destruct z as [|p|p]; [split; [discriminate | reflexivity] | | lia].
  rewrite toString_positive. split; [|apply uint_allDigits].
  destruct (uint_starts_with_digit _ (Unsigned.to_uint_nonnil p)) as (c & r & -> & _).
  discriminate.
Qed.

Lemma allDigits_noWhiteSpace (s : string) : allDigits s = true -> noWhiteSpace s = true.
Proof.
  induction s as [|c r IH]; [reflexivity|]. cbn [allDigits noWhiteSpace].
  intros H. apply andb_prop in H as [Hc Hr].
  destruct (digit_facts c Hc) as (-> & _). now rewrite (IH Hr).
Qed.

Lemma noWhiteSpace_append (a b : string) :
  noWhiteSpace (a ++ b) = noWhiteSpace a && noWhiteSpace b.
Proof.
  induction a as [|c a IH]; [reflexivity|].
  change (String c a ++ b) with (String c (a ++ b)).
  cbn [noWhiteSpace]. now rewrite IH, andb_assoc.
Qed.

End ParserFacts.

(** ** Further facts about the tracker lookup and the path helpers *)

Section LookupFacts.

Lemma Map_get_set_same {V : Type} (k : string) (v : V) (m : Map V) :
  Map_get k (Map_set k v m) = Some v.
Proof.
  induction m as [|[k' v'] m IH]; cbn [Map_set Map_get].
  - now rewrite String.eqb_refl.
  - destruct (String.eqb k' k) eqn:E; cbn [Map_get]; now rewrite E.
Qed.

Lemma Map_get_set_other {V : Type} (k k' : string) (v : V) (m : Map V) :
  k <> k' -> Map_get k' (Map_set k v m) = Map_get k' m.
Proof.
  intros Hk. induction m as [|[k0 v0] m IH]; cbn [Map_set Map_get].
  - apply String.eqb_neq in Hk. now rewrite Hk.
  - destruct (String.eqb_spec k0 k) as [->|E]; cbn [Map_get].
    + apply String.eqb_neq in Hk. now rewrite Hk.
    + now rewrite IH.
Qed.

Lemma find_append {A : Type} (f : A -> bool) (l1 l2 : list A) :
  find f (l1 ++ l2)%list =
  match find f l1 with
  | Some x => Some x
  | None => find f l2
  end.
Proof.
  induction l1 as [|x l1 IH]; [reflexivity|]. cbn [app find].
  now destruct (f x).
Qed.

(** The lookup built at lines 37-40 answers with the last row of a name. *)
Lemma build_lookup_get (rows : list WorkspaceRow) (lookup : Map WsInfo) (name : string) :
  Map_get name (build_lookup rows lookup) =
  match lastRow name rows with
  | Some info => Some info
  | None => Map_get name lookup
  end.
Proof.
  unfold lastRow. revert lookup.
  induction rows as [|ws rows IH]; intros lookup; [reflexivity|].
  cbn [build_lookup rev]. rewrite IH, find_append.
  destruct (find (rowNamed name) (rev rows)) as [ws'|]; [reflexivity|].
  cbn [find]. unfold rowNamed.
  destruct (row_directory_name ws) as [n|]; [|reflexivity].
  destruct (String.eqb_spec n name) as [->|E].
  - apply Map_get_set_same.
  - now apply Map_get_set_other.
Qed.

Lemma split_segments_noSlash (s : string) : Forall noSlash (split "/" s).
Proof.
  unfold noSlash. induction s as [|c r IH]; cbn [split].
  - repeat constructor.
  - destruct (Ascii.eqb c "/") eqn:E; [constructor; [reflexivity | exact IH]|].
    destruct (split "/" r) as [|h t]; [repeat constructor; cbn; now rewrite E|].
    inversion IH; subst. constructor; [|assumption].
    cbn [includes]. now rewrite E.
Qed.

(** [path.basename] never returns a separator. *)
Lemma basename_noSlash (p : string) : noSlash (basename p).
Proof.
  unfold basename, pop.
  pose proof (split_segments_noSlash (dropTrailingSlashes p)) as H.
  induction H as [|x l Hx _ IH]; [reflexivity|].
  cbn [last]. destruct l; [exact Hx | exact IH].
Qed.


(** Every pair of the listing is the pair of one first occurrence. *)
Lemma firstSockets_complete (raws seen : list RawSocket) (raw : RawSocket) :
  In raw raws ->
  existsb (sameSocket (raw_pidNum raw) (raw_port raw)) seen = true \/
  exists raw', In raw' (firstSockets seen raws) /\ rawIdentity raw' = rawIdentity raw.
Proof.
  revert seen. induction raws as [|r0 rest IH]; intros seen; [contradiction|].
  cbn [firstSockets]. intros [<- | Hin].
  - destruct (existsb _ seen) eqn:E; [now left|].
    right. exists r0. split; [now left | reflexivity].
  - destruct (existsb (sameSocket (raw_pidNum r0) (raw_port r0)) seen) eqn:E.
    + apply IH, Hin.
    + destruct (IH (seen ++ [r0])%list Hin) as [Hseen | (raw' & Hin' & Hid)].
      * rewrite existsb_app in Hseen. apply orb_prop in Hseen as [Hseen | H0];
          [now left|].
        right. exists r0. split; [now left|].
        cbn [existsb] in H0. rewrite orb_false_r in H0.
        now apply sameSocket_true in H0.
      * right. exists raw'. split; [now right | exact Hid].
Qed.

End LookupFacts.

(** ** Further facts about the enrichment loop *)

Section EnrichmentFacts.

Variable host : Host.

Lemma resolveCwd_trimmed (pidNum : number) (r : Realm host) :
  exists dir w,
    resolveCwd pidNum r =
      (Normal dir, {| world := w; conductorWorkspaces := conductorWorkspaces r |}) /\
    trim dir = dir.
Proof.
  unfold resolveCwd, try_catch, bind, ret. rewrite execAsync_run.
  destruct r as [w0 cw]. cbn [world conductorWorkspaces].
  destruct (exec host (lsof_cwd_command pidNum) w0) as [[out|e] w1];
    cbn [fst snd]; [|eexists _, _; split; reflexivity].
  match goal with |- context [if negb (truthy ?d) then _ else _] =>
    assert (Hd : trim d = d) by (destruct (truthy out); [apply trim_idempotent | reflexivity]);
    destruct (negb (truthy d))
  end; [|eexists _, _; split; [reflexivity | exact Hd]].
  rewrite execAsync_run. cbn [world conductorWorkspaces].
  destruct (exec host (lsof_cwd_fallback_command pidNum) w1) as [[out2|e2] w2];
    cbn [fst snd]; eexists _, _; (split; [reflexivity|]);
    [apply trim_idempotent | reflexivity].
Qed.

Lemma Map_set_Forall {V : Type} (P : string * V -> Prop) (k : string) (v : V) (m : Map V) :
  Forall P m -> (forall k', P (k', v)) -> Forall P (Map_set k v m).
Proof.
  intros Hm Hv. induction Hm as [|[k' v'] m Hx Hm IH]; cbn [Map_set].
  - repeat constructor. apply Hv.
  - destruct (String.eqb k' k); constructor; auto.
Qed.

Lemma Visible_read (own : option (Map WsInfo)) (w : World host) :
  Visible host own (match overlapping_write host w with
                    | Some written => written
                    | None => own
                    end).
Proof.
  destruct (overlapping_write host w) as [written|] eqn:E; [right; eauto | now left].
Qed.

Lemma processLine_enriched (line : string) (processes : Map ProcessEntry) (r : Realm host) :
  Forall (fun kv => Enriched host (conductorWorkspaces r) (snd kv)) processes ->
  exists processes' w,
    processLine line processes r =
      (Normal processes', {| world := w; conductorWorkspaces := conductorWorkspaces r |}) /\
    Forall (fun kv => Enriched host (conductorWorkspaces r) (snd kv)) processes'.
Proof.
  intros HP. unfold processLine.
  destruct (parseLine line) as [raw|];
    [|exists processes, (world r); destruct r; split; [reflexivity | assumption]].
  cbn zeta.
  destruct (Map_has _ processes);
    [exists processes, (world r); destruct r; split; [reflexivity | assumption]|].
  destruct (resolveCwd_trimmed (raw_pidNum raw) r) as (dir & w1 & E1 & Hdir).
  assert (Hlookup : exists r0 : Realm host, fst (resolveCwd (raw_pidNum raw) r0) = Normal dir).
  { exists r. now rewrite E1. }
  rewrite (bind_normal host _ _ E1).
  destruct (truthy dir) eqn:Etruthy.
  - unfold read_conductorWorkspaces at 1. unfold bind at 1. cbn [world conductorWorkspaces].
    destruct (resolveBranch_total host dir
                {| world := w1; conductorWorkspaces := conductorWorkspaces r |})
      as (b & w2 & E2).
    rewrite (bind_normal host _ _ E2). unfold ret. cbn [conductorWorkspaces].
    eexists _, w2. split; [reflexivity|].
    apply Map_set_Forall; [assumption|]. intros k'. cbn [snd].
    eexists raw, dir, b, _. rewrite Etruthy.
    split; [reflexivity|]. split; [apply (Visible_read _ w1)|].
    repeat split; try assumption. intros ->. discriminate.
  - unfold ret. eexists _, w1. split; [reflexivity|].
    apply Map_set_Forall; [assumption|]. intros k'. cbn [snd].
    exists raw, dir, EmptyString, (conductorWorkspaces r). rewrite Etruthy.
    split; [reflexivity|]. split; [now left|]. repeat split; assumption.
Qed.

Lemma forEachLine_enriched (lines : list string) (processes : Map ProcessEntry)
    (r : Realm host) :
  Forall (fun kv => Enriched host (conductorWorkspaces r) (snd kv)) processes ->
  exists processes' w,
    forEachLine lines processes r =
      (Normal processes', {| world := w; conductorWorkspaces := conductorWorkspaces r |}) /\
    Forall (fun kv => Enriched host (conductorWorkspaces r) (snd kv)) processes'.
Proof.
  revert processes r. induction lines as [|line rest IH]; intros processes r HP.
  - exists processes, (world r). destruct r. split; [reflexivity | assumption].
  - cbn [forEachLine].
    destruct (processLine_enriched line processes r HP) as (p1 & w1 & E1 & HP1).
    rewrite (bind_normal host _ _ E1).
    destruct (IH p1 {| world := w1; conductorWorkspaces := conductorWorkspaces r |} HP1)
      as (p2 & w2 & E2 & HP2).
    cbn [conductorWorkspaces] in *. eauto.
Qed.

(** One enumeration cycle, with both invariants of the loop. *)
Lemma getLocalhostProcesses_enriched (r : Realm host) :
  exists cw w1,
    getConductorWorkspaces r =
      (Normal cw, {| world := w1; conductorWorkspaces := conductorWorkspaces r |}) /\
    match exec host lsof_listen_command w1 with
    | (Throw e, w2) =>
        getLocalhostProcesses r =
        (Normal [], {| world := console_error host e w2; conductorWorkspaces := cw |})
    | (Normal stdout, w2) =>
        exists discovered w3,
          getLocalhostProcesses r =
          (Normal (sort comparePorts discovered),
           {| world := w3; conductorWorkspaces := cw |}) /\
          Forall2 EntryOf (firstSockets [] (rawSockets stdout)) discovered /\
          Forall (Enriched host cw) discovered
    end.
Proof.
  destruct (getConductorWorkspaces_total host r) as (cw & w1 & Ecw).
  exists cw, w1. split; [assumption|].
  destruct (exec host lsof_listen_command w1) as [[stdout|e] w2] eqn:Eexec.
  - pose (r2 := {| world := w2; conductorWorkspaces := cw |} : Realm host).
    pose (lines := filterBoolean (split newline (trim stdout))).
    destruct (forEachLine_spec host lines (Map_empty ProcessEntry) [] r2)
      as (processes & w3 & Eloop & HD); [constructor | constructor |].
    destruct (forEachLine_enriched lines (Map_empty ProcessEntry) r2)
      as (processes' & w3' & Eloop' & HE); [constructor|].
    rewrite Eloop in Eloop'. injection Eloop' as <- <-.
    cbn [conductorWorkspaces app] in *.
    exists (Map_values processes), w3. split; [|split].
    + unfold getLocalhostProcesses. apply try_catch_normal.
      rewrite (bind_normal host _ _ Ecw).
      unfold write_conductorWorkspaces at 1. unfold bind at 1.
      cbn [world]. unfold bind at 1. rewrite execAsync_run.
      cbn [world conductorWorkspaces]. rewrite Eexec. cbn [fst snd].
      fold r2. fold lines. rewrite (bind_normal host _ _ Eloop). reflexivity.
    + now apply Discovered_values.
    + unfold Map_values. apply Forall_map. exact HE.
  - unfold getLocalhostProcesses. erewrite try_catch_throw.
    2:{ rewrite (bind_normal host _ _ Ecw).
        unfold write_conductorWorkspaces at 1. unfold bind at 1.
        cbn [world]. unfold bind at 1. rewrite execAsync_run.
        cbn [world conductorWorkspaces]. rewrite Eexec. reflexivity. }
    reflexivity.
Qed.

End EnrichmentFacts.

(** ** What every entry of a cycle satisfies *)

Section EntryFacts.

Lemma or_else_noSlash (s d : string) : noSlash s -> noSlash d -> noSlash (or_else s d).
Proof. destruct s; unfold or_else, truthy; cbn; auto. Qed.

Lemma conductorMatch_captures (dir W P : string) :
  conductorMatch dir = Some (W, P) ->
  W <> EmptyString /\ noSlash W /\ P <> EmptyString /\ noSlash P.
Proof.
  intros H. apply conductorMatch_sound in H as (pre & rest & _ & HW & HWs & HP & HPs & _).
  auto.
Qed.

Variable host : Host.



Lemma Enriched_workspace (own : option (Map WsInfo)) (e : ProcessEntry) :
  Enriched host own e -> workspace e <> "-" ->
  conductorMatch (cwd e) = Some (workspace e, project e).
Proof.
  intros (raw & dir & b & snapshot & -> & _).
  cbn [makeEntry cwd workspace project].
  destruct (truthy dir); [|intros H; now contradiction H].
  unfold resolveProject.
  destruct (conductorMatch dir) as [[w p]|] eqn:E; [|intros H; now contradiction H].
  destruct (conductorMatch_captures _ _ _ E) as (Hw & _ & Hp & _). intros _.
  destruct snapshot as [lookup|]; [destruct (Map_get p lookup)|];
    cbn [workspaceName projectName];
    now rewrite (or_else_truthy _ Hw), (or_else_truthy _ Hp).
Qed.

Lemma Enriched_tracker (own : option (Map WsInfo)) (e : ProcessEntry) :
  Enriched host own e ->
  workspaceId e <> JNull \/ workspaceState e <> JNull ->
  exists snapshot lookup info,
    Visible host own snapshot /\ snapshot = Some lookup /\
    Map_get (project e) lookup = Some info /\
    workspaceId e = ws_id info /\ workspaceState e = ws_state info /\
    conductorMatch (cwd e) = Some (workspace e, project e).
Proof.
  intros (raw & dir & b & snapshot & -> & Hvis & _).
  cbn [makeEntry cwd workspace project workspaceId workspaceState].
  destruct (truthy dir); [|intros [H|H]; now contradiction H].
  unfold resolveProject.
  destruct (conductorMatch dir) as [[w p]|] eqn:E; [|intros [H|H]; now contradiction H].
  destruct (conductorMatch_captures _ _ _ E) as (Hw & _ & Hp & _).
  destruct snapshot as [lookup|]; [|intros [H|H]; now contradiction H].
  destruct (Map_get p lookup) as [info|] eqn:Eget; [|intros [H|H]; now contradiction H].
  intros _. exists (Some lookup), lookup, info.
  cbn [workspaceName projectName info_workspaceId info_workspaceState].
  rewrite (or_else_truthy _ Hw), (or_else_truthy _ Hp). auto 7.
Qed.

(** With no snapshot to read, own or overlapping, the tracker fields are
    [null]. *)
Lemma Enriched_no_tracker (e : ProcessEntry) :
  Enriched host None e ->
  (forall w written, overlapping_write host w = Some written -> written = None) ->
  workspaceId e = JNull /\ workspaceState e = JNull.
Proof.
  intros He Hnone.
  destruct (workspaceId e) eqn:Eid; destruct (workspaceState e) eqn:Est;
    try (split; reflexivity);
    (destruct (Enriched_tracker _ _ He) as (snapshot & lookup & info & Hvis & -> & _);
     [rewrite Eid, Est; (left; discriminate) || (right; discriminate)|];
     destruct Hvis as [Hown | (w & Hw)]; [discriminate Hown | apply Hnone in Hw; discriminate Hw]).
Qed.

(** With no overlapping assignment, the snapshot read is the request's own. *)
Lemma Enriched_own (own : option (Map WsInfo)) (e : ProcessEntry) :
  Enriched host own e ->
  (forall w, overlapping_write host w = None) ->
  exists raw dir b,
    e = makeEntry raw dir (if truthy dir then resolveProject own dir else noProject) b.
Proof.
  intros (raw & dir & b & snapshot & -> & Hvis & _) Hnone.
  exists raw, dir, b.
  destruct Hvis as [-> | (w & Hw)]; [reflexivity|].
  rewrite Hnone in Hw. discriminate.
Qed.

Lemma Enriched_noSlash (own : option (Map WsInfo)) (e : ProcessEntry) :
  Enriched host own e -> noSlash (project e) /\ noSlash (workspace e).
Proof.
  intros (raw & dir & b & snapshot & -> & _). cbn [makeEntry workspace project].
  destruct (truthy dir); [|split; reflexivity].
  unfold resolveProject.
  destruct (conductorMatch dir) as [[w p]|] eqn:E.
  - destruct (conductorMatch_captures _ _ _ E) as (_ & Hw & _ & Hp).
    destruct snapshot as [lookup|]; [destruct (Map_get p lookup)|];
      cbn [workspaceName projectName];
      (split; apply or_else_noSlash; (assumption || reflexivity)).
  - cbn [workspaceName projectName].
    split; apply or_else_noSlash; (apply basename_noSlash || reflexivity).
Qed.

Lemma Enriched_shape (own : option (Map WsInfo)) (e : ProcessEntry) :
  Enriched host own e ->
  running e = "localhost:" ++ toString (port e) /\
  (String.length (command e) <= 20)%nat /\
  trim (cwd e) = cwd e.
Proof.
  intros (raw & dir & b & snapshot & -> & _ & Hdir & _).
  cbn [makeEntry running port command cwd].
  repeat split; [apply substring0_length | exact Hdir].
Qed.

(** The list of one cycle: enriched by a request that stored the snapshot
    of this cycle, with ports that are numbers, in port order. *)
Lemma cycle_entries (r : Realm host) :
  exists entries r',
    getLocalhostProcesses r = (Normal entries, r') /\
    fst (getConductorWorkspaces r) = Normal (conductorWorkspaces r') /\
    Forall (Enriched host (conductorWorkspaces r')) entries /\
    Forall (fun e => isPort (port e)) entries /\
    StronglySorted port_le entries.
Proof.
  destruct (getLocalhostProcesses_enriched host r) as (cw & w1 & Ecw & H).
  destruct (exec host lsof_listen_command w1) as [[stdout|err] w2].
  - destruct H as (discovered & w3 & E & HF & HE).
    pose proof (discovered_ports _ _ HF) as Hports.
    pose proof (Permutation_sym (sort_perm comparePorts discovered)) as Hperm.
    eexists _, _. split; [exact E|]. rewrite Ecw. cbn [fst conductorWorkspaces].
    repeat split.
    + exact (Permutation_Forall Hperm HE).
    + exact (Permutation_Forall Hperm Hports).
    + now apply sort_sorted.
  - eexists _, _. split; [exact H|]. rewrite Ecw. cbn [fst conductorWorkspaces].
    repeat split; constructor.
Qed.

End EntryFacts.

(** ** Further properties of [server.js] *)

Section ServerProperties.

Variable host : Host.

(** X1. [getConductorWorkspaces] never throws, whatever the file check, the
    sqlite3 call and [JSON.parse] do: it returns a lookup or [null], and it
    leaves the module variable [conductorWorkspaces] to its caller. *)
Theorem X1_getConductorWorkspaces_never_throws (r : Realm host) :
  exists snapshot w,
    getConductorWorkspaces r =
    (Normal snapshot, {| world := w; conductorWorkspaces := conductorWorkspaces r |}).
Proof. apply getConductorWorkspaces_total. Qed.

(** X2. The tracker bridge degrades to [null]: without running any command
    when the database file is absent, and after the query when the query
    throws, prints only white space, or prints what [JSON.parse] and the row
    loop reject. *)
Theorem X2_getConductorWorkspaces_degrades_to_null (r : Realm host) :
  (existsSync host (CONDUCTOR_DB host) (world r) = false ->
   getConductorWorkspaces r = (Normal None, r)) /\
  (existsSync host (CONDUCTOR_DB host) (world r) = true ->
   forall w,
     (forall e, exec host (sqlite_command host) (world r) = (Throw e, w) ->
        getConductorWorkspaces r =
        (Normal None, {| world := w; conductorWorkspaces := conductorWorkspaces r |})) /\
     (forall out, exec host (sqlite_command host) (world r) = (Normal out, w) ->
        trim out = EmptyString \/ JSON_parse host out = None ->
        getConductorWorkspaces r =
        (Normal None, {| world := w; conductorWorkspaces := conductorWorkspaces r |}))).
Proof.
  split; [apply getConductorWorkspaces_absent|].
  intros Hdb w.
  unfold getConductorWorkspaces, try_catch, bind, fs_existsSync, ret.
  destruct r as [w0 cw0]. cbn [world conductorWorkspaces] in *.
  rewrite Hdb. cbn [negb]. rewrite execAsync_run. cbn [world conductorWorkspaces].
  split.
  - intros e ->. reflexivity.
  - intros out -> Hbad. cbn [fst snd].
    destruct (truthy (trim out)) eqn:Et; cbn [negb]; [|reflexivity].
    destruct Hbad as [Hblank | ->]; [|reflexivity].
    rewrite Hblank in Et. discriminate.
Qed.

(** X3. When the query answers with rows, the lookup returned answers
    [get(name)] with the id and state of the last row whose [directory_name]
    is [name], and with nothing for a name no row carries. *)
Theorem X3_getConductorWorkspaces_lookup_last_row (r : Realm host) (out : string)
    (w : World host) (rows : list WorkspaceRow) :
  existsSync host (CONDUCTOR_DB host) (world r) = true ->
  exec host (sqlite_command host) (world r) = (Normal out, w) ->
  trim out <> EmptyString ->
  JSON_parse host out = Some rows ->
  exists lookup,
    getConductorWorkspaces r =
    (Normal (Some lookup), {| world := w; conductorWorkspaces := conductorWorkspaces r |}) /\
    forall name, Map_get name lookup = lastRow name rows.
Proof.
  intros Hdb Hexec Hout Hrows. exists (build_lookup rows (Map_empty WsInfo)). split.
  - unfold getConductorWorkspaces, try_catch, bind, fs_existsSync, ret.
    destruct r as [w0 cw0]. cbn [world conductorWorkspaces] in *.
    rewrite Hdb. cbn [negb]. rewrite execAsync_run. cbn [world conductorWorkspaces].
    rewrite Hexec. cbn [fst snd].
    rewrite (proj2 (truthy_true (trim out)) Hout), Hrows. reflexivity.
  - intros name. rewrite build_lookup_get. now destruct (lastRow name rows).
Qed.

(** X4. Each enumeration cycle takes its own tracker snapshot and assigns
    it to [conductorWorkspaces], whatever the variable held before; as long
    as no overlapping request assigns the variable meanwhile, every entry
    returned is enriched against the snapshot of its own cycle. *)
Theorem X4_cycle_uses_fresh_snapshot (r : Realm host) :
  (forall w, overlapping_write host w = None) ->
  exists entries r',
    getLocalhostProcesses r = (Normal entries, r') /\
    fst (getConductorWorkspaces r) = Normal (conductorWorkspaces r') /\
    Forall (fun e =>
              exists raw dir b,
                e = makeEntry raw dir
                      (if truthy dir then resolveProject (conductorWorkspaces r') dir
                       else noProject) b) entries.
Proof.
  intros Hnone.
  destruct (cycle_entries host r) as (entries & r' & E & Hs & HE & _).
  exists entries, r'. split; [exact E|]. split; [exact Hs|].
  eapply Forall_impl; [|exact HE]. intros e He. now apply (Enriched_own host _ _ He).
Qed.

(** X5. No listening socket is lost: when the listing call succeeds, every
    raw socket of the listing has an entry with its [(pid, port)] pair in the
    returned list, which holds as many entries as the listing has distinct
    pairs. *)
Theorem X5_no_socket_is_lost (r r1 : Realm host) (cw : option (Map WsInfo))
    (stdout : string) (w2 : World host) :
  getConductorWorkspaces r = (Normal cw, r1) ->
  exec host lsof_listen_command (world r1) = (Normal stdout, w2) ->
  exists entries r',
    getLocalhostProcesses r = (Normal entries, r') /\
    List.length entries = List.length (firstSockets [] (rawSockets stdout)) /\
    forall raw, In raw (rawSockets stdout) ->
      exists e, In e entries /\ identity e = rawIdentity raw.
Proof.
  intros Ecw' Eexec'.
  destruct (getLocalhostProcesses_spec host r) as (cw0 & w1 & Ecw & H).
  rewrite Ecw in Ecw'. injection Ecw' as <- <-. cbn [world] in Eexec'.
  rewrite Eexec' in H. destruct H as (discovered & w3 & E & HF).
  pose proof (sort_perm comparePorts discovered) as Hperm.
  eexists _, _. split; [exact E|]. split.
  - rewrite (Permutation_length Hperm). symmetry. exact (Forall2_length HF).
  - intros raw Hraw.
    destruct (firstSockets_complete _ [] _ Hraw) as [Hseen | (raw' & Hin & Hid)];
      [discriminate Hseen|].
    assert (Hmap : In (rawIdentity raw') (map identity discovered)).
    { rewrite (Forall2_EntryOf_identities HF). now apply in_map. }
    apply in_map_iff in Hmap as (e & He & Hine).
    exists e. split; [|congruence].
    apply (Permutation_in _ (Permutation_sym Hperm)). exact Hine.
Qed.

(** X6. Every entry returned is well formed: its port is a non-negative
    integer, never [NaN]; [running] reads [localhost:] followed by that port;
    [command] holds at most 20 characters; [cwd] has no white space at
    either end. *)
Theorem X6_entries_well_formed (r : Realm host) :
  exists entries r',
    getLocalhostProcesses r = (Normal entries, r') /\
    Forall (fun e => isPort (port e) /\
                     running e = "localhost:" ++ toString (port e) /\
                     (String.length (command e) <= 20)%nat /\
                     trim (cwd e) = cwd e) entries.
Proof.
  destruct (cycle_entries host r) as (entries & r' & E & _ & HE & Hp & _).
  exists entries, r'. split; [exact E|].
  apply Forall_forall. intros e He. rewrite Forall_forall in HE, Hp.
  split; [now apply Hp | exact (Enriched_shape host _ _ (HE e He))].
Qed.


(** X8. An entry whose workspace is not the sentinel [-] (an entry of the
    dashboard's dev tab) has a working directory that matches the Conductor
    path expression, and its workspace and project are the two captures. *)
Theorem X8_workspace_entries_match_conductor_path (r : Realm host) :
  exists entries r',
    getLocalhostProcesses r = (Normal entries, r') /\
    Forall (fun e => workspace e <> "-" ->
                     conductorMatch (cwd e) = Some (workspace e, project e)) entries.
Proof.
  destruct (cycle_entries host r) as (entries & r' & E & _ & HE & _).
  exists entries, r'. split; [exact E|].
  eapply Forall_impl; [|exact HE]. intros e. apply Enriched_workspace.
Qed.

(** X9. Tracker data is never invented: an entry with a non-null
    [workspaceId] or [workspaceState] has a working directory on a Conductor
    path, and both fields are the columns that a snapshot
    [conductorWorkspaces] held during the cycle (the one this cycle stored,
    or one an overlapping request assigned) files under the entry's
    project. *)
Theorem X9_tracker_fields_come_from_snapshot (r : Realm host) :
  exists entries r',
    getLocalhostProcesses r = (Normal entries, r') /\
    Forall (fun e =>
              workspaceId e <> JNull \/ workspaceState e <> JNull ->
              exists snapshot lookup info,
                Visible host (conductorWorkspaces r') snapshot /\
                snapshot = Some lookup /\
                Map_get (project e) lookup = Some info /\
                workspaceId e = ws_id info /\ workspaceState e = ws_state info /\
                conductorMatch (cwd e) = Some (workspace e, project e)) entries.
Proof.
  destruct (cycle_entries host r) as (entries & r' & E & _ & HE & _).
  exists entries, r'. split; [exact E|].
  eapply Forall_impl; [|exact HE]. intros e. apply Enriched_tracker.
Qed.

(** X10. The project and the workspace of an entry are single path
    segments: neither ever holds a ['/']. *)
Theorem X10_project_and_workspace_have_no_separator (r : Realm host) :
  exists entries r',
    getLocalhostProcesses r = (Normal entries, r') /\
    Forall (fun e => noSlash (project e) /\ noSlash (workspace e)) entries.
Proof.
  destruct (cycle_entries host r) as (entries & r' & E & _ & HE & _).
  exists entries, r'. split; [exact E|].
  eapply Forall_impl; [|exact HE]. intros e. apply Enriched_noSlash.
Qed.

End ServerProperties.

(** ** Further properties of the request handler and the parsers *)

Section RouteProperties.

Variable host : Host.




(** X12. Only two routes touch the machine: a request that is neither
    [GET /api/processes] nor a [POST] under [/api/kill/] is answered without
    running any command or changing any state; an [OPTIONS] request gets 200
    with an empty body on every path, and a path other than [/] and
    [/index.html] gets 404 [Not Found]. *)
Theorem X12_only_two_routes_touch_the_machine (req : Request) (pathname : string)
    (r : Realm host) :
  URL_pathname host (url req) ("http://localhost:" ++ PORT_toString host)
    = Some pathname ->
  ~ (pathname = "/api/processes" /\ method req = "GET") ->
  ~ (startsWith "/api/kill/" pathname = true /\ method req = "POST") ->
  exists resp,
    server req r = (Normal resp, r) /\
    (method req = "OPTIONS" -> status resp = 200%Z /\ body resp = NoBody) /\
    (method req <> "OPTIONS" -> pathname <> "/" -> pathname <> "/index.html" ->
     status resp = 404%Z /\ body resp = Text "Not Found").
Proof.
  intros Hu Hp Hk. unfold server.
  rewrite (bind_normal host _ _ (new_URL_pathname_ok host _ _ r Hu)).
  destruct (String.eqb_spec (method req) "OPTIONS") as [Ho|Ho].
  { unfold ret. eexists. split; [reflexivity|]. split; [auto | congruence]. }
  destruct (String.eqb_spec pathname "/api/processes") as [E1|E1];
    destruct (String.eqb_spec (method req) "GET") as [E2|E2];
    try (exfalso; now apply Hp); cbn [andb].
  all: destruct (startsWith "/api/kill/" pathname) eqn:E3;
    destruct (String.eqb_spec (method req) "POST") as [E4|E4];
    try (exfalso; now apply Hk); cbn [andb].
  all: destruct (String.eqb_spec pathname "/") as [E5|E5];
    destruct (String.eqb_spec pathname "/index.html") as [E6|E6]; cbn [orb];
    unfold ret; eexists; (split; [reflexivity|]);
    (split; [congruence | intros; (congruence || (split; reflexivity))]).
Qed.


(** X16. The working-directory lookup never throws and returns a trimmed
    string: the empty string when the first query throws, the cleaned answer
    of the first query when there is one, and in neither case is the fallback
    query run. *)
Theorem X16_resolveCwd_never_throws (pidNum : number) (r : Realm host) :
  exists dir w,
    resolveCwd pidNum r =
      (Normal dir, {| world := w; conductorWorkspaces := conductorWorkspaces r |}) /\
    trim dir = dir /\
    (forall e w1,
       exec host (lsof_cwd_command pidNum) (world r) = (Throw e, w1) ->
       dir = EmptyString /\ w = w1) /\
    (forall out w1,
       exec host (lsof_cwd_command pidNum) (world r) = (Normal out, w1) ->
       out <> EmptyString ->
       trim (replace_first "cwd" (replace_leading_n out)) <> EmptyString ->
       dir = trim (replace_first "cwd" (replace_leading_n out)) /\ w = w1).
Proof.
  destruct (resolveCwd_trimmed host pidNum r) as (dir & w & E & Hdir).
  exists dir, w. split; [exact E|]. split; [exact Hdir|].
  unfold resolveCwd, try_catch, bind, ret in E. rewrite execAsync_run in E.
  split.
  - intros e w1 Hexec. rewrite Hexec in E. cbn [fst snd] in E.
    injection E as <- <-. auto.
  - intros out w1 Hexec Hout Hclean. rewrite Hexec in E. cbn [fst snd] in E.
    rewrite (proj2 (truthy_true out) Hout) in E.
    rewrite (proj2 (truthy_true _) Hclean) in E. cbn [negb] in E.
    injection E as <- <-. auto.
Qed.

End RouteProperties.

Section ParserProperties.

(** X14. The listing parser reads back the fields of a line: for a line of
    nine or more fields separated by single spaces whose ninth field is an
    address, of any form, followed by [:] and a port in decimal, a safe
    integer (at most 2^53 - 1, which [parseInt] returns exactly), it returns
    the first field as command, [parseInt] of the second as pid, and that
    port. *)
Theorem X14_parseLine_reads_fields
    (command pid user fd type device size node addr : string) (n : Z)
    (more : list string) :
  forallb isField ([command; pid; user; fd; type; device; size; node] ++ more) = true ->
  noWhiteSpace addr = true ->
  (0 <= n <= 9007199254740991)%Z ->
  parseLine
    (join " " ([command; pid; user; fd; type; device; size; node;
                addr ++ ":" ++ toString (Int n)] ++ more))
  = Some {| raw_command := command; raw_pidNum := parseInt pid; raw_port := Int n |}.
Proof.
  intros Hfields Haddr [Hn _].
  destruct (toString_port_digits n Hn) as [Hne Hdigits].
  assert (Hname : isField (addr ++ ":" ++ toString (Int n)) = true).
  { unfold isField. apply andb_true_intro. split.
    - apply truthy_true. destruct addr; discriminate.
    - rewrite noWhiteSpace_append, Haddr. cbn [andb append noWhiteSpace].
      change (isWhiteSpace ":") with false. cbn [negb andb].
      now apply allDigits_noWhiteSpace. }
  cbn [app forallb] in Hfields.
  repeat (apply andb_prop in Hfields as [?H Hfields]).
  unfold parseLine. rewrite split_ws_join; [|discriminate|].
  2:{ cbn [app forallb]. repeat (apply andb_true_intro; split; [assumption|]).
      assumption. }
  cbn [app List.length Nat.ltb Nat.leb nth].
  change (addr ++ ":" ++ toString (Int n)) with (addr ++ String ":" (toString (Int n))).
  rewrite (portMatch_last_colon addr _ Hne Hdigits), parseInt_toString_Int.
  reflexivity.
Qed.

Lemma filter_partition {A : Type} (f : A -> bool) (l : list A) :
  Permutation (filter (fun x => negb (f x)) l ++ filter f l)%list l.
Proof.
  induction l as [|x l IH]; [reflexivity|]. cbn [filter].
  destruct (f x); cbn [negb app].
  - rewrite <- Permutation_middle. now constructor.
  - now constructor.
Qed.

Lemma StronglySorted_filter {A : Type} (R : A -> A -> Prop) (f : A -> bool) (l : list A) :
  StronglySorted R l -> StronglySorted R (filter f l).
Proof.
  induction 1 as [|x l Hs IH Hx]; cbn [filter]; [constructor|].
  destruct (f x); [|exact IH].
  constructor; [exact IH|].
  apply Forall_forall. intros y Hy. apply filter_In in Hy as [Hy _].
  rewrite Forall_forall in Hx. now apply Hx.
Qed.

End ParserProperties.

Section DashboardProperties.

Variable host : Host.

(** X15. The two tabs of the dashboard split the list of a cycle: every
    entry is on exactly one of them, the two counts add up to the length of
    the list, and each tab is still in port order. *)
Theorem X15_dashboard_tabs_partition (r : Realm host) :
  exists entries r',
    getLocalhostProcesses r = (Normal entries, r') /\
    Permutation (Dashboard.dev entries ++ Dashboard.system entries)%list entries /\
    (List.length (Dashboard.dev entries) + List.length (Dashboard.system entries)
     = List.length entries)%nat /\
    (forall e, In e (Dashboard.dev entries) -> ~ In e (Dashboard.system entries)) /\
    StronglySorted port_le (Dashboard.dev entries) /\
    StronglySorted port_le (Dashboard.system entries).
Proof.
  destruct (cycle_entries host r) as (entries & r' & E & _ & _ & _ & Hsorted).
  exists entries, r'. split; [exact E|].
  pose proof (filter_partition (fun p => String.eqb (workspace p) "-") entries) as Hperm.
  split; [exact Hperm|]. split; [|split; [|split]].
  - rewrite <- (Permutation_length Hperm). now rewrite length_app.
  - unfold Dashboard.dev, Dashboard.system. intros e H1 H2.
    apply filter_In in H1 as [_ H1]. apply filter_In in H2 as [_ H2].
    rewrite H2 in H1. discriminate.
  - now apply StronglySorted_filter.
  - now apply StronglySorted_filter.
Qed.

End DashboardProperties.

(** ** The claims on the listing as a whole *)

Section ListingClaims.

Variable host : Host.

(** C1. Whatever the socket listing holds, duplicates included, the list
    returned by [getLocalhostProcesses] has exactly one entry per
    [(pid, port)] pair of the listing: no two entries share a pair, every
    raw socket of the listing has the entry of its pair, and every entry is
    built from the first raw occurrence of its pair, whose pid, port and
    command it carries. *)
Theorem C1_one_entry_per_pid_port (r : Realm host) :
  exists entries r',
    getLocalhostProcesses r = (Normal entries, r') /\
    NoDup (map identity entries) /\
    forall cw r1 stdout w2,
      getConductorWorkspaces r = (Normal cw, r1) ->
      exec host lsof_listen_command (world r1) = (Normal stdout, w2) ->
      (forall raw, In raw (rawSockets stdout) ->
         exists e, In e entries /\ identity e = rawIdentity raw) /\
      (forall e, In e entries ->
         exists raw,
           firstRaw (pid e) (port e) (rawSockets stdout) = Some raw /\
           EntryOf raw e /\
           command e = substring0 20 (raw_command raw)).
Proof.
  destruct (getLocalhostProcesses_spec host r) as (cw & w1 & Ecw & H).
  destruct (exec host lsof_listen_command w1) as [[stdout|err] w2] eqn:Eexec.
  - destruct H as (discovered & w3 & E & HF).
    pose proof (sort_perm comparePorts discovered) as Hperm.
    eexists _, _. split; [exact E|]. split.
    + apply (Permutation_NoDup (Permutation_sym (Permutation_map identity Hperm))).
      rewrite (Forall2_EntryOf_identities HF). apply firstSockets_NoDup.
    + intros cw' r1 stdout' w2' Ecw' Eexec'.
      rewrite Ecw in Ecw'. injection Ecw' as <- <-. cbn [world] in Eexec'.
      rewrite Eexec in Eexec'. injection Eexec' as <- <-. split.
      * intros raw Hraw.
        destruct (firstSockets_complete _ [] _ Hraw) as [Hseen | (raw' & Hin & Hid)];
          [discriminate Hseen|].
        assert (Hmap : In (rawIdentity raw') (map identity discovered)).
        { rewrite (Forall2_EntryOf_identities HF). now apply in_map. }
        apply in_map_iff in Hmap as (e & He & Hine).
        exists e. split; [|congruence].
        exact (Permutation_in _ (Permutation_sym Hperm) Hine).
      * intros e He. apply (Permutation_in _ Hperm) in He.
        destruct (Forall2_EntryOf_In _ HF He) as (raw & Hraw & Hentry).
        apply firstSockets_first in Hraw as [_ Hfirst].
        pose proof (EntryOf_identity Hentry) as Hid.
        unfold identity, rawIdentity in Hid. injection Hid as -> ->.
        exists raw. repeat split; try assumption.
        destruct Hentry as (c & i & b & ->). reflexivity.
  - eexists _, _. split; [exact H|]. split; [constructor|].
    intros cw' r1 stdout' w2' Ecw' Eexec'.
    rewrite Ecw in Ecw'. injection Ecw' as <- <-. cbn [world] in Eexec'.
    rewrite Eexec in Eexec'. discriminate.
Qed.

(** C7 (as amended). Every element of the array answered to
    [GET /api/processes] is an object with exactly the keys [pid], [port],
    [command], [cwd], [project], [workspace], [branch], [running],
    [workspaceId], [workspaceState], in this order; [command] holds at most
    20 characters; [workspaceId] and [workspaceState] are [null] when the
    tracker snapshot is unavailable to the request and no overlapping
    request has left a snapshot in [conductorWorkspaces]. *)
Theorem C7_entry_fields (req : Request) (r : Realm host) :
  method req = "GET" ->
  URL_pathname host (url req) ("http://localhost:" ++ PORT_toString host)
    = Some "/api/processes" ->
  exists items r',
    server req r =
    (Normal {| status := 200;
               headers := (cors_headers ++ [("Content-Type", "application/json")])%list;
               body := Json (JArr items) |}, r') /\
    Forall (fun item =>
              keysOf item = Some entry_fields /\
              (exists c, fieldOf "command" item = Some (JStr c) /\
                         (String.length c <= 20)%nat) /\
              (fst (getConductorWorkspaces r) = Normal None ->
               (forall w written,
                  overlapping_write host w = Some written -> written = None) ->
               fieldOf "workspaceId" item = Some JNull /\
               fieldOf "workspaceState" item = Some JNull))
           items.
Proof.
  intros Hm Hu.
  destruct (cycle_entries host r) as (entries & r' & E & Hs & HE & _).
  eexists _, _. split; [exact (server_api_processes host req r _ _ Hm Hu E)|].
  apply Forall_map. eapply Forall_impl; [|exact HE].
  intros e He. split; [reflexivity|]. split.
  - exists (command e). split; [reflexivity|].
    now destruct (Enriched_shape host _ _ He) as (_ & Hc & _).
  - intros Hnone Hoverlap. rewrite Hs in Hnone. injection Hnone as Hnone.
    rewrite Hnone in He.
    destruct (Enriched_no_tracker host _ He Hoverlap) as [Hid Hstate].
    cbn. now rewrite Hid, Hstate.
Qed.

End ListingClaims.

(** ** Properties of [setup.js] *)

Section SetupProperties.

Lemma toString_nonneg_digits_only (c : ascii) (z : Z) :
  isDigit c = false -> (0 <= z)%Z -> includes c (toString (Int z)) = false.
Proof.
  intros Hc Hz. destruct z as [|p|p]; [| | lia].
  - change (toString (Int 0)) with (String "0" EmptyString). cbn [includes].
    rewrite orb_false_r. apply Ascii.eqb_neq. intros <-. discriminate Hc.
  - rewrite toString_positive. now apply uint_digits_only.
Qed.

Lemma majorVersion_well_formed (n : Z) (rest : string) :
  (0 <= n)%Z ->
  Setup.majorVersion ("v" ++ toString (Int n) ++ "." ++ rest) = Int n.
Proof.
  intros Hn. unfold Setup.majorVersion.
  change (Setup.string_slice1 ("v" ++ toString (Int n) ++ "." ++ rest))
    with (toString (Int n) ++ String "." rest).
  rewrite split_append, split_no_separator
    by (now apply toString_nonneg_digits_only).
  cbn [app hd]. apply parseInt_toString_Int.
Qed.

(** X17. The version check goes by the major number: on a version
    [v<major>.<rest>] the script exits with code 1 when the major is below
    18 and goes on otherwise; a version whose major cannot be read passes
    the check; and the check never writes to the disk. *)
Theorem X17_checkNodeVersion_by_major (m : Setup.Machine) :
  (forall n rest,
     Setup.node_version m = "v" ++ toString (Int n) ++ "." ++ rest -> (0 <= n)%Z ->
     fst (Setup.checkNodeVersion m) = if (n <? 18)%Z then Setup.Exit 1 else Setup.Done tt) /\
  (Setup.majorVersion (Setup.node_version m) = NaN ->
   fst (Setup.checkNodeVersion m) = Setup.Done tt) /\
  Setup.disk (snd (Setup.checkNodeVersion m)) = Setup.disk m.
Proof.
  unfold Setup.checkNodeVersion. repeat split.
  - intros n rest Hv Hn. rewrite Hv, (majorVersion_well_formed n rest Hn).
    cbn [Setup.lessThan Setup.MIN_NODE_VERSION]. now destruct (n <? 18)%Z.
  - intros ->. reflexivity.
  - now destruct (Setup.lessThan _ _).
Qed.

Variable tools : Setup.Tools.


(** X19. On a Node release below 18 the script stops at the version check:
    it exits with code 1 and the disk is as it was; no [.nvmrc] is written
    and [npm install] is not run. *)
Theorem X19_setup_stops_on_old_node (m : Setup.Machine) (n : Z) (rest : string) :
  Setup.node_version m = "v" ++ toString (Int n) ++ "." ++ rest ->
  (0 <= n < 18)%Z ->
  fst (Setup.main tools m) = Setup.Exit 1 /\
  Setup.disk (snd (Setup.main tools m)) = Setup.disk m.
Proof.
  intros Hv Hn. unfold Setup.main, Setup.andThen, Setup.checkNodeVersion.
  cbn [Setup.print Setup.node_version].
  rewrite Hv, (majorVersion_well_formed n rest (proj1 Hn)).
  cbn [Setup.lessThan Setup.MIN_NODE_VERSION].
  destruct (Z.ltb_spec n 18); [|lia]. split; reflexivity.
Qed.


End SetupProperties.

(** ** The further properties at work on the demonstration machines *)

Lemma X2_witness :
  getConductorWorkspaces (Demo.start Demo.untracked 0%nat)
  = (Normal None, Demo.start Demo.untracked 0%nat).
Proof.
  apply (proj1 (X2_getConductorWorkspaces_degrades_to_null Demo.untracked
                  (Demo.start Demo.untracked 0%nat))).
  reflexivity.
Defined.

Lemma X3_witness :
  exists lookup,
    fst (getConductorWorkspaces (Demo.start Demo.host 0%nat)) = Normal (Some lookup) /\
    Map_get "myapp" lookup = Some {| ws_id := JStr "w-17"; ws_state := JStr "active" |} /\
    Map_get "blog" lookup = None.
Proof.
  destruct (X3_getConductorWorkspaces_lookup_last_row Demo.host
              (Demo.start Demo.host 0%nat) "[rows]" 1%nat Demo.rows
              eq_refl eq_refl ltac:(discriminate) eq_refl)
    as (lookup & E & H).
  exists lookup. rewrite E, !H. repeat split.
Defined.

Lemma X5_witness :
  exists entries r',
    getLocalhostProcesses (Demo.start Demo.host 0%nat) = (Normal entries, r') /\
    List.length entries = 3%nat.
Proof.
  edestruct (X5_no_socket_is_lost Demo.host (Demo.start Demo.host 0%nat))
    as (entries & r' & E & Hlen & _); [reflexivity | reflexivity |].
  exists entries, r'. split; [exact E | exact Hlen].
Defined.


Lemma X8_witness :
  exists e,
    pid e = Int 100 /\
    conductorMatch (cwd e) = Some ("ws-1", "myapp").
Proof.
  destruct (X8_workspace_entries_match_conductor_path Demo.host
              (Demo.start Demo.host 0%nat))
    as (entries & r' & E & H).
  vm_compute in E. injection E as <- <-.
  apply Forall_inv in H.
  match type of H with workspace ?x <> _ -> _ => exists x end.
  split; [reflexivity|]. apply H. discriminate.
Defined.

Lemma X9_witness :
  exists e lookup,
    pid e = Int 100 /\
    Map_get (project e) lookup = Some {| ws_id := JStr "w-17"; ws_state := JStr "active" |}.
Proof.
  destruct (X9_tracker_fields_come_from_snapshot Demo.host (Demo.start Demo.host 0%nat))
    as (entries & r' & E & H).
  vm_compute in E. injection E as <- <-.
  apply Forall_inv in H.
  match type of H with workspaceId ?x <> _ \/ _ -> _ => exists x end.
  destruct H as (snapshot & lookup & info & _ & _ & Hget & Hid & Hstate & _);
    [left; discriminate|].
  exists lookup. split; [reflexivity|].
  rewrite Hget. destruct info as [i s]. cbn in Hid, Hstate. now rewrite <- Hid, <- Hstate.
Defined.


Lemma X12_witness :
  exists resp,
    server (Demo.get "/api/kill/12") (Demo.start Demo.host 0%nat)
    = (Normal resp, Demo.start Demo.host 0%nat) /\
    status resp = 404%Z /\ body resp = Text "Not Found".
Proof.
  destruct (X12_only_two_routes_touch_the_machine Demo.host (Demo.get "/api/kill/12")
              "/api/kill/12" (Demo.start Demo.host 0%nat) eq_refl)
    as (resp & E & _ & H).
  - intros [H _]. discriminate H.
  - intros [_ H]. discriminate H.
  - exists resp. split; [exact E|]. apply H; discriminate.
Defined.


Lemma X14_witness :
  parseLine "node 100 me 23u IPv6 0x2 0t0 TCP [::1]:3000 (LISTEN)"
  = Some {| raw_command := "node"; raw_pidNum := Int 100; raw_port := Int 3000 |}.
Proof.
  exact (X14_parseLine_reads_fields "node" "100" "me" "23u" "IPv6" "0x2" "0t0" "TCP"
           "[::1]" 3000 ["(LISTEN)"] eq_refl eq_refl ltac:(lia)).
Defined.

Lemma X16_witness :
  (exists w, resolveCwd (Int 7) (Demo.start Scenes.primary_throws 0%nat)
             = (Normal EmptyString, Demo.start Scenes.primary_throws w)) /\
  (exists w, resolveCwd (Int 7) (Demo.start Scenes.primary_answers 0%nat)
             = (Normal "/home/me/-tools", Demo.start Scenes.primary_answers w)).
Proof.
  split.
  - destruct (X16_resolveCwd_never_throws Scenes.primary_throws (Int 7)
                (Demo.start Scenes.primary_throws 0%nat))
      as (dir & w & E & _ & Hthrow & _).
    destruct (Hthrow _ 1%nat eq_refl) as [-> ->]. now exists 1%nat.
  - destruct (X16_resolveCwd_never_throws Scenes.primary_answers (Int 7)
                (Demo.start Scenes.primary_answers 0%nat))
      as (dir & w & E & _ & _ & Hanswer).
    destruct (Hanswer ("n/home/me/cwd-tools" ++ String newline EmptyString) 1%nat eq_refl)
      as [-> ->]; [discriminate | discriminate |].
    now exists 1%nat.
Defined.

Lemma X17_witness :
  fst (Setup.checkNodeVersion (Setup.fresh_checkout "v16.20.2")) = Setup.Exit 1 /\
  fst (Setup.checkNodeVersion (Setup.fresh_checkout "v22.3.0")) = Setup.Done tt /\
  fst (Setup.checkNodeVersion (Setup.fresh_checkout "nightly")) = Setup.Done tt.
Proof.
  split; [|split].
  - exact (proj1 (X17_checkNodeVersion_by_major (Setup.fresh_checkout "v16.20.2"))
             16%Z "20.2" eq_refl ltac:(discriminate)).
  - exact (proj1 (X17_checkNodeVersion_by_major (Setup.fresh_checkout "v22.3.0"))
             22%Z "3.0" eq_refl ltac:(discriminate)).
  - exact (proj1 (proj2 (X17_checkNodeVersion_by_major (Setup.fresh_checkout "nightly")))
             eq_refl).
Defined.


Lemma X19_witness :
  fst (Setup.main Scenes.npm_tools (Setup.fresh_checkout "v16.20.2")) = Setup.Exit 1 /\
  Setup.disk (snd (Setup.main Scenes.npm_tools (Setup.fresh_checkout "v16.20.2")))
  = [("package.json", "{}")].
Proof.
  destruct (X19_setup_stops_on_old_node Scenes.npm_tools (Setup.fresh_checkout "v16.20.2")
              16%Z "20.2" eq_refl ltac:(lia))
    as [Hexit Hdisk].
  split; [exact Hexit | rewrite Hdisk; reflexivity].
Defined.


(** *** X4 *)

Lemma X4_witness :
  exists entries r',
    getLocalhostProcesses (Demo.start Demo.host 0%nat) = (Normal entries, r') /\
    fst (getConductorWorkspaces (Demo.start Demo.host 0%nat))
    = Normal (conductorWorkspaces r').
Proof.
  destruct (X4_cycle_uses_fresh_snapshot Demo.host (Demo.start Demo.host 0%nat)
              (fun _ => eq_refl))
    as (entries & r' & E & Hs & _).
  exists entries, r'. split; [exact E | exact Hs].
Defined.

(** *** C1 *)

Lemma C1_witness :
  exists entries r',
    getLocalhostProcesses (Demo.start Demo.host 0%nat) = (Normal entries, r') /\
    (exists e, In e entries /\ identity e = (Int 100, Int 3000)) /\
    exists raw,
      firstRaw (Int 100) (Int 3000) (rawSockets Demo.listing) = Some raw /\
      raw_command raw = "node".
Proof.
  destruct (C1_one_entry_per_pid_port Demo.host (Demo.start Demo.host 0%nat))
    as (entries & r' & E & _ & H).
  edestruct H as [Hall Hfirst]; [reflexivity | reflexivity |].
  destruct (Hall {| raw_command := "beam.smp-erlang-runtime-27";
                    raw_pidNum := Int 100; raw_port := Int 3000 |})
    as (e & Hin & Hid); [vm_compute; right; right; left; reflexivity|].
  exists entries, r'. split; [exact E|]. split; [exists e; split; assumption|].
  destruct (Hfirst e Hin) as (raw & Hf & _ & _).
  injection Hid as Hp Hq. rewrite Hp, Hq in Hf.
  exists raw. split; [exact Hf|].
  vm_compute in Hf. injection Hf as <-. reflexivity.
Defined.

(** *** C7 *)

(** The claim as worded fails on the names: the objects carry [cwd],
    [running], [workspaceId] and [workspaceState], not [workingDirectory],
    [trackerId] and [trackerState]. *)
Lemma C7_counterexample :
  match fst (server (Demo.get "/api/processes") (Demo.start Demo.untracked 0%nat)) with
  | Normal {| status := 200; body := Json (JArr (item :: _)) |} =>
      keysOf item = Some entry_fields /\
      keysOf item <> Some spec_fields /\
      fieldOf "workingDirectory" item = None /\
      fieldOf "trackerId" item = None /\
      fieldOf "running" item = Some (JStr "localhost:3000")
  | _ => False
  end.
Proof. vm_compute. repeat split; discriminate. Qed.

Lemma C7_witness :
  exists items r',
    server (Demo.get "/api/processes") (Demo.start Demo.untracked 0%nat)
    = (Normal {| status := 200;
                 headers := (cors_headers ++ [("Content-Type", "application/json")])%list;
                 body := Json (JArr items) |}, r') /\
    Forall (fun item =>
              keysOf item = Some entry_fields /\
              fieldOf "workspaceId" item = Some JNull /\
              fieldOf "workspaceState" item = Some JNull) items.
Proof.
  destruct (C7_entry_fields Demo.untracked (Demo.get "/api/processes")
              (Demo.start Demo.untracked 0%nat) eq_refl eq_refl)
    as (items & r' & E & H).
  exists items, r'. split; [exact E|].
  eapply Forall_impl; [|exact H].
  intros item (Hk & _ & Hn). split; [exact Hk|]. apply Hn; [reflexivity|].
  intros w written Hw. discriminate Hw.
Defined.

(** Without the condition on overlapping requests the last part fails: on
    [Scenes.overlapped] the request finds no tracker database and stores
    [null], yet the entry of process 100 carries the id and the state that
    the other request's snapshot files under [myapp]. *)
Lemma overlapping_snapshot_reaches_entries :
  fst (getConductorWorkspaces (Demo.start Scenes.overlapped 0%nat)) = Normal None /\
  match fst (server (Demo.get "/api/processes") (Demo.start Scenes.overlapped 0%nat)) with
  | Normal {| status := 200; body := Json (JArr (item :: _)) |} =>
      fieldOf "pid" item = Some (JNum 100) /\
      fieldOf "workspaceId" item = Some (JStr "w-17") /\
      fieldOf "workspaceState" item = Some (JStr "active")
  | _ => False
  end.
Proof. vm_compute. repeat split. Qed.
